(** * predictable-python: contracts enforced at run time and checked statically

    A shallow embedding of [contract_util.py] (the [enforce_contract]
    decorator), [contract_validator.py] (the [ASTVisitor] static checker and
    [verify_contract_schema]) and [v1_schema.py], followed by the properties
    of the engine that the specification states.

    Conventions of the embedding:
    - a Python [dict] is an association list in insertion order (the order of
      [.items()] decides which parameter is examined first);
    - code that can raise returns a [res]: [Ok], [Raise] of a Python
      exception, or [Hang] when a governed body never returns;
    - the class attributes of [ASTVisitor] are one store shared by all its
      instances, passed in and out of every pass. *)

From Stdlib Require Import String List ZArith QArith Bool Lia.
Import ListNotations.
Set Warnings "-register-all".
Close Scope Q_scope.
Open Scope string_scope.
Open Scope list_scope.

(* ===================================================================== *)
(** ** Python values, exceptions and results                              *)
(* ===================================================================== *)

Module Py.

(** Values passed to and returned by governed functions. *)
Inductive value : Type :=
| VNone
| VBool (b : bool)
| VInt (z : Z)
| VFloat (q : Q)
| VStr (s : string).

(** Built-in exceptions the engine's own code can run into. *)
Inductive pyerr : Type :=
| KeyError (key : string)
| TypeError
| AttributeError.

(** One constructor per [raise ContractException(...)] site of
    [contract_util.py]; the payload is what the message interpolates. *)
Inductive violation : Type :=
| NotDeclaredInContract (function_name : string)        (* line 83 *)
| CallNotAllowed (function_name call : string)          (* line 91 *)
| FunctionNotSpecified                                  (* line 95 *)
| CallerNotAllowed (function_caller function_name : string) (* line 99 *)
| UnboundParameters                                     (* line 107 *)
| ParamNotDeclared (arg : string)                       (* line 114, re-raised at 118 *)
| ParamCheckError (e : pyerr)                           (* line 118, wrapping another error *)
| ParamInvalid (param : string)                         (* line 126 *)
| TimeoutExceeded (function_name : string)              (* line 155 *)
| ReturnInvalid (ret : value).                          (* line 171 *)

(** Exceptions. [OtherException] is any other subclass of [Exception];
    [BaseOnly] is a [BaseException] outside [Exception] ([SystemExit],
    [KeyboardInterrupt]). *)
Inductive exn : Type :=
| ContractException (v : violation)
| ContractValidationException
| Builtin (e : pyerr)
| OtherException (name : string)
| BaseOnly (name : string).

(** [isinstance(e, Exception)]. *)
Definition is_Exception (e : exn) : bool :=
  match e with
  | BaseOnly _ => false
  | _ => true
  end.

(** [isinstance(e, ContractException)]. *)
Definition is_ContractException (e : exn) : bool :=
  match e with
  | ContractException _ => true
  | _ => false
  end.

(** The outcome of running Python code. *)
Inductive res (A : Type) : Type :=
| Ok (a : A)
| Raise (e : exn)
| Hang.
Arguments Ok {A} a.
Arguments Raise {A} e.
Arguments Hang {A}.

Definition bind {A B : Type} (m : res A) (k : A -> res B) : res B :=
  match m with
  | Ok a => k a
  | Raise e => Raise e
  | Hang => Hang
  end.

(** The violation kinds of the specification's error taxonomy. *)
Module Kind.
Inductive t : Type :=
| FunctionNotDeclared
| CallNotAllowed
| CallerNotAllowed
| UnboundParameters
| ParamNotDeclared
| ParamInvalid
| TimeoutExceeded
| ReturnInvalid.
End Kind.

Definition kind_of (v : violation) : Kind.t :=
  match v with
  | NotDeclaredInContract _ => Kind.FunctionNotDeclared
  | CallNotAllowed _ _ => Kind.CallNotAllowed
  | FunctionNotSpecified => Kind.FunctionNotDeclared
  | CallerNotAllowed _ _ => Kind.CallerNotAllowed
  | UnboundParameters => Kind.UnboundParameters
  | ParamNotDeclared _ => Kind.ParamNotDeclared
  | ParamCheckError _ => Kind.ParamNotDeclared
  | ParamInvalid _ => Kind.ParamInvalid
  | TimeoutExceeded _ => Kind.TimeoutExceeded
  | ReturnInvalid _ => Kind.ReturnInvalid
  end.

(** *** Contract values

    What the keys of a contract dictionary hold: the kinds of
    [v1_schema.py] ([bool], [list], [dict], [Callable], [float]) and two
    kinds outside it.  Lists hold names; callables are the validator
    predicates, taken by the truth value of what they return. *)
Inductive cval : Type :=
| CNone
| CBool (b : bool)
| CInt (z : Z)
| CFloat (q : Q)
| CList (l : list string)
| CDict (d : list (string * cval))
| CCallable (f : value -> bool).

Definition dict : Type := list (string * cval).

Fixpoint lookup {A : Type} (k : string) (d : list (string * A)) : option A :=
  match d with
  | [] => None
  | (k', v) :: d' => if String.eqb k k' then Some v else lookup k d'
  end.

Definition mem (k : string) (l : list string) : bool :=
  existsb (String.eqb k) l.

(** [k in d] for a dictionary. *)
Definition has_key {A : Type} (k : string) (d : list (string * A)) : bool :=
  match lookup k d with
  | Some _ => true
  | None => false
  end.

(** [d[k]] for a dictionary. *)
Definition getitem (d : dict) (k : string) : res cval :=
  match lookup k d with
  | Some v => Ok v
  | None => Raise (Builtin (KeyError k))
  end.

(** [d.get(k, [])]. *)
Definition get_or_empty (d : dict) (k : string) : cval :=
  match lookup k d with
  | Some v => v
  | None => CList []
  end.

(** [k in c] for any contract value. *)
Definition py_in (k : string) (c : cval) : res bool :=
  match c with
  | CList l => Ok (mem k l)
  | CDict d => Ok (has_key k d)
  | _ => Raise (Builtin TypeError)
  end.

(** [c[k]] for any contract value and a string subscript. *)
Definition py_getitem (c : cval) (k : string) : res cval :=
  match c with
  | CDict d => getitem d k
  | _ => Raise (Builtin TypeError)
  end.

(** [c.items()]. *)
Definition py_items (c : cval) : res (list (string * cval)) :=
  match c with
  | CDict d => Ok d
  | _ => Raise (Builtin AttributeError)
  end.

(** [c.get(k, [])]. *)
Definition py_get_or_empty (c : cval) (k : string) : res cval :=
  match c with
  | CDict d => Ok (get_or_empty d k)
  | _ => Raise (Builtin AttributeError)
  end.

(** [not c(v)]: calling a validator and testing what it returns.  The
    callables of [cval] return for every value; one that raises or never
    returns is not among them. *)
Definition py_call (c : cval) (v : value) : res bool :=
  match c with
  | CCallable f => Ok (f v)
  | _ => Raise (Builtin TypeError)
  end.

(** A number as a rational, for [c > 0] and [proc.join(c)]. *)
Definition py_number (c : cval) : res Q :=
  match c with
  | CBool b => Ok (if b then 1 else 0)%Q
  | CInt z => Ok (inject_Z z)
  | CFloat q => Ok q
  | _ => Raise (Builtin TypeError)
  end.

(** Truth value of [if c:]. *)
Definition truthy (c : cval) : bool :=
  match c with
  | CNone => false
  | CBool b => b
  | CInt z => negb (Z.eqb z 0%Z)
  | CFloat q => negb (Qeq_bool q 0%Q)
  | CList l => match l with [] => false | _ => true end
  | CDict d => match d with [] => false | _ => true end
  | CCallable _ => true
  end.

(** [d[k] = v]: the key keeps its place, a new key goes last. *)
Fixpoint setitem {A : Type} (k : string) (v : A) (d : list (string * A)) : list (string * A) :=
  match d with
  | [] => [(k, v)]
  | (k', v') :: d' =>
      if String.eqb k k' then (k', v) :: d' else (k', v') :: setitem k v d'
  end.

(** Two contracts that differ at most in the truth values they hold at
    top level. *)
Definition same_but_bools (c c' : dict) : Prop :=
  forall k,
    lookup k c = lookup k c'
    \/ exists b b', lookup k c = Some (CBool b) /\ lookup k c' = Some (CBool b').

(** [a + b]. *)
Definition py_add (a b : cval) : res cval :=
  match a, b with
  | CList l1, CList l2 => Ok (CList (l1 ++ l2))
  | _, _ => Raise (Builtin TypeError)
  end.

End Py.
Import Py.

Notation "x <- m ;; k" := (bind m (fun x => k))
  (at level 61, m at next level, right associativity).
Notation "m ;;; k" := (bind m (fun _ => k))
  (at level 61, right associativity).

(* ===================================================================== *)
(** ** The fragment of Python's [ast] the checkers look at               *)
(* ===================================================================== *)

Module Ast.

Inductive expr : Type :=
| Name (id : string)
| Constant (repr : string)
| Attribute (value : expr) (attr : string)
| Subscript (value slice : expr)
| BinOp (left : expr) (op : string) (right : expr)
| Lambda (body : expr)
| Call (lineno : nat) (func : expr) (args : list expr).

(** [ast.arguments]: the parameter names and the defaults of the last
    [length defaults] of them. *)
Record arguments : Type := mkArguments {
  args : list string;
  defaults : list expr
}.

(** [ast.alias] of an [import] statement. *)
Record alias : Type := mkAlias {
  alias_lineno : nat;
  alias_name : string
}.

Inductive stmt : Type :=
| Expr (value : expr)
| Assign (target value : expr)
| Return (value : option expr)
| Pass
| RaiseStmt (exc : option expr)
| Import (names : list alias)
| ImportFrom (lineno : nat) (module : string)
| If (test : expr) (body orelse : list stmt)
| FunctionDef (lineno : nat) (name : string) (a : arguments)
              (body : list stmt) (decorator_list : list expr)
| ClassDef (lineno : nat) (name : string) (bases : list expr)
           (body : list stmt) (decorator_list : list expr).

(** [ast.Module]. *)
Definition module : Type := list stmt.

(** Any node, as [ast.walk] and [iter_child_nodes] see them.  Leaves
    without children that no checker tests for ([arg], [Load], operators)
    are left out. *)
Inductive node : Type :=
| NExpr (e : expr)
| NStmt (s : stmt)
| NArguments (a : arguments)
| NAlias (a : alias).

Definition option_list {A : Type} (o : option A) : list A :=
  match o with
  | Some a => [a]
  | None => []
  end.

(** [ast.iter_child_nodes]: the children in the order of [_fields]. *)
Definition iter_child_nodes (n : node) : list node :=
  match n with
  | NExpr e =>
      match e with
      | Name _ | Constant _ => []
      | Attribute v _ => [NExpr v]
      | Subscript v s => [NExpr v; NExpr s]
      | BinOp l _ r => [NExpr l; NExpr r]
      | Lambda b => [NExpr b]
      | Call _ f xs => NExpr f :: map NExpr xs
      end
  | NStmt s =>
      match s with
      | Expr v => [NExpr v]
      | Assign t v => [NExpr t; NExpr v]
      | Return v => map NExpr (option_list v)
      | Pass => []
      | RaiseStmt e => map NExpr (option_list e)
      | Import names => map NAlias names
      | ImportFrom _ _ => []
      | If t b o => NExpr t :: map NStmt b ++ map NStmt o
      | FunctionDef _ _ a b d => NArguments a :: map NStmt b ++ map NExpr d
      | ClassDef _ _ bs b d => map NExpr bs ++ map NStmt b ++ map NExpr d
      end
  | NArguments a => map NExpr (defaults a)
  | NAlias _ => []
  end.

Fixpoint expr_size (e : expr) : nat :=
  match e with
  | Name _ | Constant _ => 1
  | Attribute v _ => S (expr_size v)
  | Subscript v s => S (expr_size v + expr_size s)
  | BinOp l _ r => S (expr_size l + expr_size r)
  | Lambda b => S (expr_size b)
  | Call _ f xs => S (expr_size f + list_sum (map expr_size xs))
  end.

Fixpoint stmt_size (s : stmt) : nat :=
  match s with
  | Expr v => S (expr_size v)
  | Assign t v => S (expr_size t + expr_size v)
  | Return v => S (list_sum (map expr_size (option_list v)))
  | Pass => 1
  | RaiseStmt e => S (list_sum (map expr_size (option_list e)))
  | Import names => S (length names)
  | ImportFrom _ _ => 1
  | If t b o =>
      S (expr_size t + list_sum (map stmt_size b) + list_sum (map stmt_size o))
  | FunctionDef _ _ a b d =>
      S (S (list_sum (map expr_size (defaults a)))
         + list_sum (map stmt_size b) + list_sum (map expr_size d))
  | ClassDef _ _ bs b d =>
      S (list_sum (map expr_size bs) + list_sum (map stmt_size b)
         + list_sum (map expr_size d))
  end.

Definition node_size (n : node) : nat :=
  match n with
  | NExpr e => expr_size e
  | NStmt s => stmt_size s
  | NArguments a => S (list_sum (map expr_size (defaults a)))
  | NAlias _ => 1
  end.

(** [ast.walk]: breadth first, a queue of nodes still to yield.  Every
    step takes one node off the queue, so the number of nodes bounds the
    number of steps. *)
Fixpoint walk_queue (steps : nat) (todo : list node) : list node :=
  match steps with
  | O => []
  | S steps' =>
      match todo with
      | [] => []
      | n :: rest => n :: walk_queue steps' (rest ++ iter_child_nodes n)
      end
  end.

Definition walk (n : node) : list node :=
  walk_queue (node_size n) [n].

End Ast.

(* ===================================================================== *)
(** ** contract_util.py                                                   *)
(* ===================================================================== *)

Module ContractUtil.
Import Ast.

(** *** class CheckFunctionCalls(ast.NodeVisitor)

    [visit] dispatches a [Call] node to [visit_Call] and every other node
    to [generic_visit].  [visit_Call] appends [node.func.id] and returns:
    it does not go on into the call's own children, and [.id] exists on a
    [Name] only.  The visitor state [self.calls] is threaded through. *)

Definition visit_Call (func : expr) (calls : list string) : res (list string) :=
  match func with
  | Name id => Ok (calls ++ [id])
  | _ => Raise (Builtin AttributeError)
  end.

Fixpoint visit_expr (e : expr) (calls : list string) : res (list string) :=
  match e with
  | Call _ func _ => visit_Call func calls
  | Name _ | Constant _ => Ok calls
  | Attribute v _ => visit_expr v calls
  | Subscript v s => calls1 <- visit_expr v calls ;; visit_expr s calls1
  | BinOp l _ r => calls1 <- visit_expr l calls ;; visit_expr r calls1
  | Lambda b => visit_expr b calls
  end.

Fixpoint visit_exprs (es : list expr) (calls : list string) : res (list string) :=
  match es with
  | [] => Ok calls
  | e :: es' => calls1 <- visit_expr e calls ;; visit_exprs es' calls1
  end.

Fixpoint visit_stmt (s : stmt) (calls : list string) : res (list string) :=
  let fix visit_stmts (ss : list stmt) (calls : list string) : res (list string) :=
    match ss with
    | [] => Ok calls
    | s' :: ss' => calls1 <- visit_stmt s' calls ;; visit_stmts ss' calls1
    end in
  match s with
  | Expr v => visit_expr v calls
  | Assign t v => calls1 <- visit_expr t calls ;; visit_expr v calls1
  | Return v => visit_exprs (option_list v) calls
  | Pass => Ok calls
  | RaiseStmt e => visit_exprs (option_list e) calls
  | Import _ => Ok calls
  | ImportFrom _ _ => Ok calls
  | If t b o =>
      calls1 <- visit_expr t calls ;;
      calls2 <- visit_stmts b calls1 ;;
      visit_stmts o calls2
  | FunctionDef _ _ a b d =>
      calls1 <- visit_exprs (defaults a) calls ;;
      calls2 <- visit_stmts b calls1 ;;
      visit_exprs d calls2
  | ClassDef _ _ bs b d =>
      calls1 <- visit_exprs bs calls ;;
      calls2 <- visit_stmts b calls1 ;;
      visit_exprs d calls2
  end.

Fixpoint visit_module (m : module) (calls : list string) : res (list string) :=
  match m with
  | [] => Ok calls
  | s :: m' => calls1 <- visit_stmt s calls ;; visit_module m' calls1
  end.

(** *** class Return *)

Record Return : Type := mkReturn {
  ce : option violation;   (* the ContractException, if any *)
  ret : value
}.

Definition exception (r : Return) : option violation := ce r.

Definition ok (r : Return) : bool :=
  match ce r with
  | Some _ => false
  | None => true
  end.

Definition returns (r : Return) : value := ret r.

(** *** The governed function

    What [wrapped] asks of [fn]: its [__name__], its source as parsed by
    [ast.parse(inspect.getsource(fn))] (a module holding the one
    definition, decorators included), its signature, and what calling it
    does.  The body is run as given: it returns or raises after some time,
    or never ends.  [fn_call] is what the body does at the time of the
    call, with the contract dictionary as it is then: a body that calls a
    function governed by the same dictionary is a [Cases.shared_fn], which
    gives a [pyfunc] for every state of the contract. *)

Inductive outcome : Type :=
| Returns (v : value)
| Raises (e : exn).

Inductive behaviour : Type :=
| Halts (duration : Q) (o : outcome)
| Diverges.

Record pyfunc : Type := mkFunc {
  fn_lineno : nat;
  __name__ : string;
  fn_args : arguments;
  fn_body : list stmt;
  fn_decorators : list expr;
  fn_call : list value -> list (string * value) -> behaviour
}.

(** For a function defined at module level: the source of a nested
    function or of a method keeps its indentation, and [ast.parse] refuses
    it. *)
Definition getsource (fn : pyfunc) : module :=
  [FunctionDef (fn_lineno fn) (__name__ fn) (fn_args fn) (fn_body fn)
               (fn_decorators fn)].

(** [inspect.signature(fn).bind] on the call arguments, for positional-or-keyword
    parameters: positionals fill the parameters in order, keywords the
    rest by name; a parameter with a default that gets no value is left
    out of [arguments] (no [apply_defaults]).  [None] is [TypeError]. *)

Fixpoint remove_key {A : Type} (k : string) (d : list (string * A)) : list (string * A) :=
  match d with
  | [] => []
  | (k', v) :: d' => if String.eqb k k' then remove_key k d' else (k', v) :: remove_key k d'
  end.

Fixpoint bind_params (params : list (string * bool)) (args : list value)
         (kwargs : list (string * value)) : option (list (string * value)) :=
  match params with
  | [] =>
      match args, kwargs with
      | [], [] => Some []
      | _, _ => None
      end
  | (p, has_default) :: ps =>
      match args with
      | a :: args' =>
          if has_key p kwargs then None
          else option_map (cons (p, a)) (bind_params ps args' kwargs)
      | [] =>
          match lookup p kwargs with
          | Some v => option_map (cons (p, v)) (bind_params ps [] (remove_key p kwargs))
          | None => if has_default then bind_params ps [] kwargs else None
          end
      end
  end.

(** The parameters of a signature, each with whether it has a default:
    the defaults belong to the last parameters. *)
Definition signature (a : arguments) : list (string * bool) :=
  let n := length (args a) - length (defaults a) in
  combine (args a) (repeat false n ++ repeat true (length (defaults a))).

(** *** enforce_contract(contract)(fn): the checks of [wrapped], in the
    order of the source *)

Section Wrapped.
Variable contract : dict.
Variable fn : pyfunc.

Local Abbreviation function_name := (__name__ fn).

(** Lines 74-75. *)
Definition function_calls : res (list string) :=
  visit_module (getsource fn) [].

(** Lines 81-93: the loop over the extracted calls. *)
Fixpoint validate_calls (calls : list string) : res unit :=
  match calls with
  | [] => Ok tt
  | call :: rest =>
      (if negb (has_key function_name contract)
       then Raise (ContractException (NotDeclaredInContract function_name))
       else
         spec <- getitem contract function_name ;;
         allowable <- py_getitem spec "allowable_calls" ;;
         in_allowable <- py_in call allowable ;;
         if in_allowable then Ok tt
         else
           global <- getitem contract "global_allowed_calls" ;;
           in_global <- py_in call global ;;
           if in_global then Ok tt
           else Raise (ContractException (CallNotAllowed function_name call))) ;;;
      validate_calls rest
  end.

(** Lines 94-95. *)
Definition check_declared : res unit :=
  functions <- getitem contract "functions" ;;
  declared <- py_in function_name functions ;;
  if declared then Ok tt else Raise (ContractException FunctionNotSpecified).

(** Lines 98-101. *)
Definition validate_caller (function_caller : string) : res unit :=
  spec <- getitem contract function_name ;;
  callers <- py_getitem spec "allowed_callers" ;;
  allowed <- py_in function_caller callers ;;
  if allowed then Ok tt
  else Raise (ContractException (CallerNotAllowed function_caller function_name)).

(** Lines 104-109: the bare [except:] turns any failure of [bind] into
    a ContractException. *)
Definition bind_arguments (args : list value) (kwargs : list (string * value))
  : res (list (string * value)) :=
  match bind_params (signature (fn_args fn)) args kwargs with
  | Some arguments => Ok arguments
  | None => Raise (ContractException UnboundParameters)
  end.

(** Lines 112-116, the loop inside the [try]. *)
Fixpoint params_declared_loop (arguments : list (string * value)) : res unit :=
  match arguments with
  | [] => Ok tt
  | (arg, _) :: rest =>
      spec <- getitem contract function_name ;;
      params <- py_getitem spec "params" ;;
      declared <- py_in arg params ;;
      if declared then params_declared_loop rest
      else Raise (ContractException (ParamNotDeclared arg))
  end.

(** Lines 111-120: [except Exception as e] re-raises whatever the loop
    raised as a ContractException. *)
Definition check_params_declared (arguments : list (string * value)) : res unit :=
  match params_declared_loop arguments with
  | Ok u => Ok u
  | Raise (ContractException v) => Raise (ContractException v)
  | Raise (Builtin e) => Raise (ContractException (ParamCheckError e))
  | Raise e => Raise e
  | Hang => Hang
  end.

(** Lines 123-128: the loop over [params.items()]; [arguments[param]] is
    a plain subscript. *)
Fixpoint param_values_loop (params : list (string * cval))
         (arguments : list (string * value)) : res unit :=
  match params with
  | [] => Ok tt
  | (param, validator_func) :: rest =>
      match lookup param arguments with
      | None => Raise (Builtin (KeyError param))
      | Some val =>
          valid <- py_call validator_func val ;;
          if valid then param_values_loop rest arguments
          else Raise (ContractException (ParamInvalid param))
      end
  end.

Definition check_param_values (arguments : list (string * value)) : res unit :=
  spec <- getitem contract function_name ;;
  params <- py_getitem spec "params" ;;
  items <- py_items params ;;
  param_values_loop items arguments.

(** Lines 136-144, [timedfn] in the worker: what ends up on the two
    queues [q] and [eq]. *)
Definition timedfn (o : outcome) : list value * list exn :=
  match o with
  | Returns r => ([r], [])
  | Raises e => if is_Exception e then ([], [e]) else ([], [])
  end.

(** [proc.join(runtime); proc.is_alive()] for an ideal worker, one that
    starts, hands its result to the queue and exits in no time: it is still
    alive when the body has not ended after [runtime] seconds.  A worker of
    the operating system takes time to start and to exit, and does not exit
    before the parent has read a result that does not fit the queue's pipe;
    for such a worker [is_alive = false] still tells that the body ended
    within [runtime], not the converse. *)
Definition is_alive (runtime : Q) (b : behaviour) : bool :=
  match b with
  | Halts duration _ => negb (Qle_bool duration runtime)
  | Diverges => true
  end.

(** What the parent does with the worker process, lines 146-154. *)
Inductive proc_action : Type :=
| ProcStart
| ProcJoin (timeout : Q)
| ProcTerminate.

(** Lines 146-164: start the worker, wait at most [runtime], then either
    terminate it and raise, or read the queues.  [join] is taken to accept
    every timeout. *)
Definition run_timed (runtime : Q) (b : behaviour) : list proc_action * res value :=
  if is_alive runtime b then
    ([ProcStart; ProcJoin runtime; ProcTerminate],
     Raise (ContractException (TimeoutExceeded function_name)))
  else
    ([ProcStart; ProcJoin runtime],
     match b with
     | Diverges => Hang (* not reached: a worker that never ends is alive *)
     | Halts _ o =>
         let '(q, eq) := timedfn o in
         let ret := match q with r :: _ => r | [] => VNone end in
         match eq with
         | e :: _ => Raise e
         | [] => Ok ret
         end
     end).

(** Line 131. *)
Definition max_runtime : res Q :=
  spec <- getitem contract function_name ;;
  runtime <- py_getitem spec "max_runtime_seconds" ;;
  py_number runtime.

(** Lines 131-167. *)
Definition execute (args : list value) (kwargs : list (string * value)) : res value :=
  runtime <- max_runtime ;;
  if negb (Qle_bool runtime 0%Q) then
    snd (run_timed runtime (fn_call fn args kwargs))
  else
    match fn_call fn args kwargs with
    | Halts _ (Returns r) => Ok r
    | Halts _ (Raises e) => Raise e
    | Diverges => Hang
    end.

(** Lines 170-174. *)
Definition check_return (ret : value) : res Return :=
  spec <- getitem contract function_name ;;
  returns_v <- py_getitem spec "returns" ;;
  valid <- py_call returns_v ret ;;
  if valid then Ok (mkReturn None ret)
  else Raise (ContractException (ReturnInvalid ret)).

(** Lines 74-128: everything before the function is run. *)
Definition checks (function_caller : string) (args : list value)
           (kwargs : list (string * value)) : res unit :=
  calls <- function_calls ;;
  validate_calls calls ;;;
  check_declared ;;;
  validate_caller function_caller ;;;
  arguments <- bind_arguments args kwargs ;;
  check_params_declared arguments ;;;
  check_param_values arguments.

(** Lines 73-174: the body of the [try]. *)
Definition try_body (function_caller : string) (args : list value)
           (kwargs : list (string * value)) : res Return :=
  checks function_caller args kwargs ;;;
  ret <- execute args kwargs ;;
  check_return ret.

(** The checks made before the function is run, in the order of the
    lines that make them. *)
Inductive check : Type :=
| CallGraph          (* lines 74-93 *)
| Declaration        (* lines 94-95 *)
| Caller             (* lines 98-101 *)
| Binding            (* lines 104-109 *)
| ParamDeclaration   (* lines 111-120 *)
| ParamValue.        (* lines 123-128 *)

Definition position (c : check) : nat :=
  match c with
  | CallGraph => 0
  | Declaration => 1
  | Caller => 2
  | Binding => 3
  | ParamDeclaration => 4
  | ParamValue => 5
  end.

(** What one check yields when it is reached. *)
Definition run_check (c : check) (function_caller : string) (args : list value)
           (kwargs : list (string * value)) : res unit :=
  match c with
  | CallGraph => calls <- function_calls ;; validate_calls calls
  | Declaration => check_declared
  | Caller => validate_caller function_caller
  | Binding => bind_arguments args kwargs ;;; Ok tt
  | ParamDeclaration =>
      arguments <- bind_arguments args kwargs ;; check_params_declared arguments
  | ParamValue =>
      arguments <- bind_arguments args kwargs ;; check_param_values arguments
  end.

(** Lines 176-180: [except ContractException as ce]. *)
Definition handler (v : violation) : res Return :=
  switch <- getitem contract "raise_on_contract_exception" ;;
  if truthy switch then Raise (ContractException v)
  else Ok (mkReturn (Some v) VNone).

Definition wrapped (function_caller : string) (args : list value)
           (kwargs : list (string * value)) : res Return :=
  match try_body function_caller args kwargs with
  | Raise (ContractException v) => handler v
  | r => r
  end.

End Wrapped.

End ContractUtil.

(* ===================================================================== *)
(** ** v1_schema.py                                                       *)
(* ===================================================================== *)

Module Schema.

(** The classes a schema names as second argument of [isinstance]. *)
Inductive pytype : Type :=
| Tbool
| Tlist
| Tdict
| TCallable
| Tfloat.

Definition isinstance (c : cval) (t : pytype) : bool :=
  match t, c with
  | Tbool, CBool _ => true
  | Tlist, CList _ => true
  | Tdict, CDict _ => true
  | TCallable, CCallable _ => true
  | Tfloat, CFloat _ => true
  | _, _ => false
  end.

(** A schema module: its two dictionaries. *)
Record t : Type := mkSchema {
  schema_globals : list (string * pytype);
  schema_functions : list (string * pytype)
}.

Definition v1_schema : t := {|
  schema_globals :=
    [ ("raise_on_contract_exception", Tbool);
      ("allowable_imports", Tlist);
      ("global_allowed_calls", Tlist);
      ("functions", Tlist) ];
  schema_functions :=
    [ ("params", Tdict);
      ("returns", TCallable);
      ("allowable_calls", Tlist);
      ("max_runtime_seconds", Tfloat);
      ("allowed_callers", Tlist) ]
|}.

End Schema.

(* ===================================================================== *)
(** ** contract_validator.py                                              *)
(* ===================================================================== *)

Module ContractValidator.
Import Ast Schema.

(** *** verify_contract_schema *)

(** Lines 184-188. *)
Fixpoint check_globals (contract : dict) (globals : list (string * pytype)) : res unit :=
  match globals with
  | [] => Ok tt
  | (k, v) :: rest =>
      if negb (has_key k contract) then Raise ContractValidationException
      else
        c <- getitem contract k ;;
        if negb (isinstance c v) then Raise ContractValidationException
        else check_globals contract rest
  end.

(** Lines 196-200, for the spec [contract[f]]. *)
Fixpoint check_function_keys (spec : cval) (keys : list (string * pytype)) : res unit :=
  match keys with
  | [] => Ok tt
  | (fkwn, fkwv) :: rest =>
      present <- py_in fkwn spec ;;
      if negb present then Raise ContractValidationException
      else
        c <- py_getitem spec fkwn ;;
        if negb (isinstance c fkwv) then Raise ContractValidationException
        else check_function_keys spec rest
  end.

(** Lines 191-200. *)
Fixpoint check_functions (contract : dict) (keys : list (string * pytype))
         (functions : list string) : res unit :=
  match functions with
  | [] => Ok tt
  | f :: rest =>
      if negb (has_key f contract) then Raise ContractValidationException
      else
        spec <- getitem contract f ;;
        check_function_keys spec keys ;;;
        check_functions contract keys rest
  end.

(** [for f in c]. *)
Definition py_iter (c : cval) : res (list string) :=
  match c with
  | CList l => Ok l
  | CDict d => Ok (map fst d)
  | _ => Raise (Builtin TypeError)
  end.

Definition verify_contract_schema (contract : dict) (schema : Schema.t) : res unit :=
  check_globals contract (schema_globals schema) ;;;
  functions_v <- getitem contract "functions" ;;
  functions <- py_iter functions_v ;;
  check_functions contract (schema_functions schema) functions.

(** *** class ASTVisitor(ast.NodeVisitor) *)

(** The attributes bound in the class body.  The lists and the dictionary
    are objects of the class: an instance that appends to
    [self.call_violation] appends to the one list all instances see. *)
Record class_attrs : Type := mkClass {
  call_violation : list (nat * string * string);
  import_violation : list (nat * string);
  undeclared_func : list (nat * string);
  undefined_func : list string;
  undecorated_class : list (nat * string);
  call_graph : list (string * list (string * bool))
}.

(** The class right after its definition. *)
Definition class_initial : class_attrs :=
  mkClass [] [] [] [] [] [].

(** What a visitor reads and writes during a pass: the class store, and
    [error_count], which [self.error_count += 1] binds on the instance. *)
Record state : Type := mkState {
  cls : class_attrs;
  error_count : nat
}.

(** [ASTVisitor(contract, file_contents)]: [__init__] binds [contract],
    [debug] and [tree]; [error_count] is still the class's [0]. *)
Definition new_visitor (shared : class_attrs) : state :=
  mkState shared 0.

Definition step : Type := state -> state * res unit.

Definition done : step := fun s => (s, Ok tt).

Definition fail (e : exn) : step := fun s => (s, Raise e).

Definition seq (a b : step) : step :=
  fun s =>
    match a s with
    | (s', Ok _) => b s'
    | r => r
    end.

(** Evaluate an expression, then continue with its value. *)
Definition eval {A : Type} (r : res A) (k : A -> step) : step :=
  fun s =>
    match r with
    | Ok a => k a s
    | Raise e => (s, Raise e)
    | Hang => (s, Hang)
    end.

Definition count_error : step :=
  fun s => (mkState (cls s) (S (error_count s)), Ok tt).

Definition on_class (f : class_attrs -> class_attrs) : step :=
  fun s => (mkState (f (cls s)) (error_count s), Ok tt).

Definition append_call_violation (r : nat * string * string) (c : class_attrs) :=
  mkClass (call_violation c ++ [r]) (import_violation c) (undeclared_func c)
          (undefined_func c) (undecorated_class c) (call_graph c).

Definition append_import_violation (r : nat * string) (c : class_attrs) :=
  mkClass (call_violation c) (import_violation c ++ [r]) (undeclared_func c)
          (undefined_func c) (undecorated_class c) (call_graph c).

Definition append_undeclared_func (r : nat * string) (c : class_attrs) :=
  mkClass (call_violation c) (import_violation c) (undeclared_func c ++ [r])
          (undefined_func c) (undecorated_class c) (call_graph c).

Definition append_undefined_func (r : string) (c : class_attrs) :=
  mkClass (call_violation c) (import_violation c) (undeclared_func c)
          (undefined_func c ++ [r]) (undecorated_class c) (call_graph c).

Definition append_undecorated_class (r : nat * string) (c : class_attrs) :=
  mkClass (call_violation c) (import_violation c) (undeclared_func c)
          (undefined_func c) (undecorated_class c ++ [r]) (call_graph c).

Fixpoint graph_append (name : string) (entry : string * bool)
         (g : list (string * list (string * bool))) :=
  match g with
  | [] => []
  | (n, l) :: g' =>
      if String.eqb name n then (n, l ++ [entry]) :: g'
      else (n, l) :: graph_append name entry g'
  end.

(** Line 75-76: [if node.name not in self.call_graph: ... = list()]. *)
Definition graph_init (name : string) (c : class_attrs) :=
  mkClass (call_violation c) (import_violation c) (undeclared_func c)
          (undefined_func c) (undecorated_class c)
          (if has_key name (call_graph c) then call_graph c
           else call_graph c ++ [(name, [])]).

(** Lines 97-98: [called] is a string and the entries are tuples, so the
    membership test never finds it and the entry is always appended. *)
Definition graph_record (name called : string) (c : class_attrs) :=
  mkClass (call_violation c) (import_violation c) (undeclared_func c)
          (undefined_func c) (undecorated_class c)
          (graph_append name (called, true) (call_graph c)).

Section Visitor.
Variable contract : dict.

(** Lines 49-52. *)
Fixpoint visit_Import (names : list alias) : step :=
  match names with
  | [] => done
  | n :: rest =>
      eval (imports <- getitem contract "allowable_imports" ;;
            py_in (alias_name n) imports)
        (fun allowed =>
           if allowed then visit_Import rest
           else seq count_error
                  (seq (on_class (append_import_violation
                                    (alias_lineno n, alias_name n)))
                       (visit_Import rest)))
  end.

(** Lines 60-62. *)
Definition visit_ImportFrom (lineno : nat) (module : string) : step :=
  eval (imports <- getitem contract "allowable_imports" ;;
        py_in module imports)
    (fun allowed =>
       if allowed then done
       else seq count_error (on_class (append_import_violation (lineno, module)))).

(** Lines 90-92: [cn.func.id if hasattr(cn.func, "id") else
    cn.func.value.id]. *)
Definition called_name (func : expr) : res string :=
  match func with
  | Name id => Ok id
  | Attribute (Name id) _ => Ok id
  | Subscript (Name id) _ => Ok id
  | _ => Raise (Builtin AttributeError)
  end.

(** Lines 85-98, one node of the walk. *)
Definition check_node (allowed_calls : list string) (name : string) (cn : node) : step :=
  match cn with
  | NStmt (Import names) => visit_Import names
  | NStmt (ImportFrom lineno module) => visit_ImportFrom lineno module
  | NExpr (Call lineno func _) =>
      eval (called_name func)
        (fun called =>
           if negb (mem called allowed_calls)
           then seq (on_class (append_call_violation (lineno, called, name)))
                    count_error
           else on_class (graph_record name called))
  | _ => done
  end.

Fixpoint walk_loop (allowed_calls : list string) (name : string)
         (nodes : list node) : step :=
  match nodes with
  | [] => done
  | cn :: rest =>
      seq (check_node allowed_calls name cn) (walk_loop allowed_calls name rest)
  end.

(** Lines 79-81, for allow-lists that are lists, as the schema asks.  (Two
    numbers are added too; the search in their sum then fails with a
    TypeError at the first call node.) *)
Definition allowed_calls_of (name : string) : res (list string) :=
  spec <- getitem contract name ;;
  allowable <- py_get_or_empty spec "allowable_calls" ;;
  total <- py_add (get_or_empty contract "global_allowed_calls") allowable ;;
  match total with
  | CList l => Ok l
  | _ => Raise (Builtin TypeError)
  end.

(** Lines 77-102: the [try] and its [except KeyError]. *)
Definition try_walk (node : stmt) (name : string) : step :=
  fun s =>
    match eval (allowed_calls_of name)
            (fun allowed => walk_loop allowed name (walk (NStmt node))) s with
    | (s', Raise (Builtin (KeyError _))) =>
        seq count_error (on_class (append_undefined_func name)) s'
    | r => r
    end.

(** Lines 64-107. *)
Definition visit_FunctionDef (node : stmt) (lineno : nat) (name : string) : step :=
  eval (py_in name (get_or_empty contract "functions"))
    (fun declared =>
       if declared then seq (on_class (graph_init name)) (try_walk node name)
       else seq count_error (on_class (append_undeclared_func (lineno, name)))).

(** Line 112: [[x.func.id for x in node.decorator_list]]. *)
Fixpoint decorator_names (decorator_list : list expr) : res (list string) :=
  match decorator_list with
  | [] => Ok []
  | Call _ (Name id) _ :: rest => names <- decorator_names rest ;; Ok (id :: names)
  | _ :: _ => Raise (Builtin AttributeError)
  end.

(** Lines 109-114. *)
Definition visit_ClassDef (lineno : nat) (name : string)
           (decorator_list : list expr) : step :=
  eval (decorator_names decorator_list)
    (fun names =>
       if negb (mem "enforce_contract" names)
       then seq count_error (on_class (append_undecorated_class (lineno, name)))
       else done).

(** [NodeVisitor.visit]: the four node types with a visitor method, and
    [generic_visit] for the rest.  No method handles an expression, and
    expressions hold no statements, so visiting one changes nothing. *)
Fixpoint visit (s : stmt) : step :=
  let fix visit_all (ss : list stmt) : step :=
    match ss with
    | [] => done
    | s' :: ss' => seq (visit s') (visit_all ss')
    end in
  match s with
  | FunctionDef lineno name _ _ _ => visit_FunctionDef s lineno name
  | ClassDef lineno name _ _ decorator_list => visit_ClassDef lineno name decorator_list
  | Import names => visit_Import names
  | ImportFrom lineno module => visit_ImportFrom lineno module
  | If _ b o => seq (visit_all b) (visit_all o)
  | _ => done
  end.

Fixpoint visit_tree (tree : module) : step :=
  match tree with
  | [] => done
  | s :: rest => seq (visit s) (visit_tree rest)
  end.

(** Line 120 of [check]; the rest of [check] prints the five lists and
    [error_count]. *)
Definition check (tree : module) : step := visit_tree tree.

End Visitor.

(** A step that leaves [undefined_func] as it is but for names it appends,
    all of which satisfy [P]. *)
Definition appends_undefined (P : string -> Prop) (st : step) : Prop :=
  forall s, exists l,
    undefined_func (cls (fst (st s))) = undefined_func (cls s) ++ l
    /\ forall n, In n l -> P n.

(** One analysis pass: a new visitor over [tree], run on the class store
    as the earlier passes left it. *)
Definition analysis_pass (contract : dict) (tree : module) (shared : class_attrs)
  : state * res unit :=
  check contract tree (new_visitor shared).

(** *** main

    The contract is taken as loaded and the file as parsed; [file] is
    [None] without [--file]. *)
Inductive exit : Type :=
| SchemaInvalid                       (* lines 209-211 *)
| LoadError (e : exn)                 (* lines 212-214 *)
| SchemaPasses                        (* lines 216-218 *)
| Analysed (report : state)           (* lines 225-226 *)
| Crashed (report : state) (e : exn)
| Hung.

Definition main (contract : dict) (file : option module) (shared : class_attrs) : exit :=
  match verify_contract_schema contract v1_schema with
  | Raise ContractValidationException => SchemaInvalid
  | Raise e => LoadError e
  | Hang => Hung
  | Ok _ =>
      match file with
      | None => SchemaPasses
      | Some tree =>
          match analysis_pass contract tree shared with
          | (report, Ok _) => Analysed report
          | (report, Raise e) => Crashed report e
          | (_, Hang) => Hung
          end
      end
  end.

End ContractValidator.

(* ===================================================================== *)
(** ** The contracts and functions of the test suite                      *)
(* ===================================================================== *)

Module TestCalls.
Import Ast ContractUtil.

(** The decorator line [@enforce_contract(contract)]. *)
Definition decorator (lineno : nat) : expr :=
  Call lineno (Name "enforce_contract") [Name "contract"].

Definition always_true : cval := CCallable (fun _ => true).

(** test/test_calls.py, lines 6-25. *)
Definition contract : dict :=
  [ ("raise_on_contract_exception", CBool true);
    ("functions", CList ["caller"; "called"]);
    ("caller", CDict
       [ ("params", CDict []);
         ("returns", always_true);
         ("allowable_calls", CList []);
         ("max_runtime_seconds", CInt 0);
         ("allowed_callers", CList []) ]);
    ("called", CDict
       [ ("params", CDict []);
         ("returns", always_true);
         ("allowable_calls", CList []);
         ("max_runtime_seconds", CInt 0);
         ("allowed_callers", CList ["test_callee"]) ]);
    ("allowable_imports", CList ["contract_util"]);
    ("global_allowed_calls", CList ["enforce_contract"]) ].

(** Lines 28-30: [def called(): return True]. *)
Definition called : pyfunc := {|
  fn_lineno := 29;
  __name__ := "called";
  fn_args := mkArguments [] [];
  fn_body := [Ast.Return (Some (Constant "True"))];
  fn_decorators := [decorator 28];
  fn_call := fun _ _ => Halts 0%Q (Returns (VBool true))
|}.

(** Lines 42-44: [def missing(): missing_function()]. *)
Definition missing : pyfunc := {|
  fn_lineno := 43;
  __name__ := "missing";
  fn_args := mkArguments [] [];
  fn_body := [Expr (Call 44 (Name "missing_function") [])];
  fn_decorators := [decorator 42];
  fn_call := fun _ _ => Halts 0%Q (Returns VNone)
|}.

End TestCalls.

Module TestParams.
Import Ast ContractUtil.

Definition is_not_none : cval :=
  CCallable (fun x => match x with VNone => false | _ => true end).

Definition is_none : cval :=
  CCallable (fun x => match x with VNone => true | _ => false end).

Definition is_str : cval :=
  CCallable (fun x => match x with VStr _ => true | _ => false end).

(** test/test_params.py, lines 6-38; [params_key] is the key of
    [pos_param]'s one parameter, ["y"] at first and ["x"] after line 68. *)
Definition contract (params_key : string) : dict :=
  [ ("raise_on_contract_exception", CBool true);
    ("functions", CList ["no_params"; "pos_param"; "pos_param_ret";
                         "bad_return"; "kwarg_param"]);
    ("no_params", CDict
       [ ("params", CDict []);
         ("returns", CCallable (fun _ => false));
         ("allowable_calls", CList []);
         ("max_runtime_seconds", CInt 0);
         ("allowed_callers", CList ["test_params"]) ]);
    ("pos_param", CDict
       [ ("params", CDict [(params_key, is_not_none)]);
         ("returns", is_none);
         ("allowable_calls", CList []);
         ("max_runtime_seconds", CInt 0);
         ("allowed_callers", CList ["test_params"]) ]);
    ("bad_return", CDict
       [ ("params", CDict []);
         ("returns", is_str);
         ("allowable_calls", CList []);
         ("max_runtime_seconds", CInt 0);
         ("allowed_callers", CList ["test_bad_return"]) ]);
    ("allowable_imports", CList ["contract_util"]);
    ("global_allowed_calls", CList ["enforce_contract"]) ].

Definition no_params : pyfunc := {|
  fn_lineno := 43;
  __name__ := "no_params";
  fn_args := mkArguments [] [];
  fn_body := [Pass];
  fn_decorators := [TestCalls.decorator 42];
  fn_call := fun _ _ => Halts 0%Q (Returns VNone)
|}.

Definition pos_param : pyfunc := {|
  fn_lineno := 48;
  __name__ := "pos_param";
  fn_args := mkArguments ["x"] [];
  fn_body := [Pass];
  fn_decorators := [TestCalls.decorator 47];
  fn_call := fun _ _ => Halts 0%Q (Returns VNone)
|}.

Definition bad_return : pyfunc := {|
  fn_lineno := 53;
  __name__ := "bad_return";
  fn_args := mkArguments [] [];
  fn_body := [Ast.Return (Some (Constant "True"))];
  fn_decorators := [TestCalls.decorator 52];
  fn_call := fun _ _ => Halts 0%Q (Returns (VBool true))
|}.

End TestParams.

Module TestTimed.
Import Ast ContractUtil.

Definition is_float : cval :=
  CCallable (fun x => match x with VFloat _ => true | _ => false end).

(** test/test_timed.py, lines 7-19. *)
Definition contract : dict :=
  [ ("raise_on_contract_exception", CBool true);
    ("functions", CList ["one_sec"]);
    ("one_sec", CDict
       [ ("params", CDict [("stime", is_float)]);
         ("returns", TestParams.is_not_none);
         ("allowable_calls", CList ["sleep"]);
         ("max_runtime_seconds", CFloat (1 # 4));
         ("allowed_callers", CList ["test_time"]) ]);
    ("allowable_imports", CList ["contract_util"; "time"]);
    ("global_allowed_calls", CList ["enforce_contract"]) ].

(** Lines 22-25: [def one_sec(stime): sleep(stime); return stime]. *)
Definition one_sec : pyfunc := {|
  fn_lineno := 23;
  __name__ := "one_sec";
  fn_args := mkArguments ["stime"] [];
  fn_body := [Expr (Call 24 (Name "sleep") [Name "stime"]);
              Ast.Return (Some (Name "stime"))];
  fn_decorators := [TestCalls.decorator 22];
  fn_call := fun args _ =>
    match args with
    | [VFloat stime] => Halts stime (Returns (VFloat stime))
    | _ => Halts 0%Q (Raises (Builtin TypeError))
    end
|}.

End TestTimed.

(* ===================================================================== *)
(** ** Further contracts, functions and modules used below                *)
(* ===================================================================== *)

Module Scenario.
Import Ast ContractUtil.

Definition spec (params : list (string * cval)) (returns : cval)
           (allowable_calls : list string) (max_runtime_seconds : cval)
           (allowed_callers : list string) : cval :=
  CDict [ ("params", CDict params);
          ("returns", returns);
          ("allowable_calls", CList allowable_calls);
          ("max_runtime_seconds", max_runtime_seconds);
          ("allowed_callers", CList allowed_callers) ].

Definition contract_of (switch : bool) (functions : list string)
           (specs : list (string * cval)) : dict :=
  [ ("raise_on_contract_exception", CBool switch);
    ("functions", CList functions) ]
  ++ specs ++
  [ ("allowable_imports", CList ["contract_util"]);
    ("global_allowed_calls", CList ["enforce_contract"]) ].

Definition anything : cval := CCallable (fun _ => true).

(** The key of the propagation switch. *)
Definition switch_key : string := "raise_on_contract_exception".

(** [[
@enforce_contract(contract)
def worker():
    helper()
]]
    under a contract that has a section for [worker], allows it no call,
    and does not list it in [functions]. *)
Definition worker : pyfunc := {|
  fn_lineno := 2;
  __name__ := "worker";
  fn_args := mkArguments [] [];
  fn_body := [Expr (Call 3 (Name "helper") [])];
  fn_decorators := [TestCalls.decorator 1];
  fn_call := fun _ _ => Halts 0%Q (Returns VNone)
|}.

Definition contract_worker_unlisted : dict :=
  contract_of true [] [("worker", spec [] anything [] (CFloat 0) ["<module>"])].

(** [[
@enforce_contract(contract)
def method_call():
    obj.method()
]] *)
Definition method_call : pyfunc := {|
  fn_lineno := 2;
  __name__ := "method_call";
  fn_args := mkArguments [] [];
  fn_body := [Expr (Call 3 (Attribute (Name "obj") "method") [])];
  fn_decorators := [TestCalls.decorator 1];
  fn_call := fun _ _ => Halts 0%Q (Returns VNone)
|}.

Definition contract_method_call (switch : bool) : dict :=
  contract_of switch ["method_call"]
    [("method_call", spec [] anything [] (CFloat 0) ["<module>"])].

(** [[
@enforce_contract(contract)
def nested():
    a(b())
]]
    under a contract that allows [nested] to call [a] only. *)
Definition nested : pyfunc := {|
  fn_lineno := 2;
  __name__ := "nested";
  fn_args := mkArguments [] [];
  fn_body := [Expr (Call 3 (Name "a") [Call 3 (Name "b") []])];
  fn_decorators := [TestCalls.decorator 1];
  fn_call := fun _ _ => Halts 0%Q (Returns VNone)
|}.

Definition contract_nested : dict :=
  contract_of true ["nested"]
    [("nested", spec [] anything ["a"] (CFloat 0) ["<module>"])].

(** [[
@enforce_contract(contract)
def relay():
    return inner()
]]
    where [inner] is governed by another contract, which raises on
    violation and does not allow [relay] to call [inner]: running the body
    raises that ContractException.  [relay]'s own contract returns
    violations instead of raising them. *)
Definition relay : pyfunc := {|
  fn_lineno := 2;
  __name__ := "relay";
  fn_args := mkArguments [] [];
  fn_body := [Ast.Return (Some (Call 3 (Name "inner") []))];
  fn_decorators := [TestCalls.decorator 1];
  fn_call := fun _ _ =>
    Halts 0%Q (Raises (ContractException (CallerNotAllowed "relay" "inner")))
|}.

Definition contract_relay : dict :=
  contract_of false ["relay"]
    [("relay", spec [] anything ["inner"] (CFloat 0) ["<module>"])].

(** [[
@enforce_contract(contract)
def scale(a, b=1):
    pass
]]
    under a contract that declares a validator for [a] and for [b]. *)
Definition scale : pyfunc := {|
  fn_lineno := 2;
  __name__ := "scale";
  fn_args := mkArguments ["a"; "b"] [Constant "1"];
  fn_body := [Pass];
  fn_decorators := [TestCalls.decorator 1];
  fn_call := fun _ _ => Halts 0%Q (Returns VNone)
|}.

Definition contract_scale (switch : bool) : dict :=
  contract_of switch ["scale"]
    [("scale", spec [("a", TestParams.is_not_none); ("b", TestParams.is_not_none)]
                    anything [] (CFloat 0) ["<module>"])].

(** [[
@enforce_contract(contract)
def one_sec(stime):
    sleep(stime)
    return 1 / 0
]]
    under the contract of test/test_timed.py. *)
Definition one_sec_dividing : pyfunc := {|
  fn_lineno := 23;
  __name__ := "one_sec";
  fn_args := mkArguments ["stime"] [];
  fn_body := [Expr (Call 24 (Name "sleep") [Name "stime"]);
              Ast.Return (Some (BinOp (Constant "1") "/" (Constant "0")))];
  fn_decorators := [TestCalls.decorator 22];
  fn_call := fun args _ =>
    match args with
    | [VFloat stime] => Halts stime (Raises (OtherException "ZeroDivisionError"))
    | _ => Halts 0%Q (Raises (Builtin TypeError))
    end
|}.

(** A contract whose section for its one function is [None]. *)
Definition contract_none_spec : dict :=
  contract_of true ["f"] [("f", CNone)].

(** A contract that passes the v1 schema, with one declared function. *)
Definition contract_valid : dict :=
  contract_of true ["f"] [("f", spec [] anything [] (CFloat 0) ["<module>"])].

(** The module [def g(): pass], which the contract above does not declare. *)
Definition module_g : module :=
  [FunctionDef 1 "g" (mkArguments [] []) [Pass] []].

(** A contract that lists [h] in [functions] and has no section for it,
    and the module [def h(): pass]. *)
Definition contract_h_unspecified : dict := contract_of true ["h"] [].

Definition module_h : module :=
  [FunctionDef 1 "h" (mkArguments [] []) [Pass] []].

(** The module holding [nested] and [method_call] as above. *)
Definition module_nested : module := getsource nested.

Definition module_method_call : module := getsource method_call.

End Scenario.

(* ===================================================================== *)
(** ** More functions, contracts and contract updates                     *)
(* ===================================================================== *)

Module Cases.
Import Ast ContractUtil Scenario.

(** [[
@enforce_contract(contract)
def one_sec(stime):
    sleep(stime)
    raise SystemExit
]]
    under the contract of test/test_timed.py. *)
Definition one_sec_exiting : pyfunc := {|
  fn_lineno := 23;
  __name__ := "one_sec";
  fn_args := mkArguments ["stime"] [];
  fn_body := [Expr (Call 24 (Name "sleep") [Name "stime"]);
              RaiseStmt (Some (Name "SystemExit"))];
  fn_decorators := [TestCalls.decorator 22];
  fn_call := fun args _ =>
    match args with
    | [VFloat stime] => Halts stime (Raises (BaseOnly "SystemExit"))
    | _ => Halts 0%Q (Raises (Builtin TypeError))
    end
|}.

(** [contract[name][key].append(x)], as the tests do to let a caller or a
    call in.  The lists of a contract written as one dictionary display are
    separate objects, so the append shows under that one key only. *)
Definition append_to (contract : dict) (name key x : string) : res dict :=
  section <- getitem contract name ;;
  l <- py_getitem section key ;;
  match section, l with
  | CDict d, CList xs =>
      Ok (setitem name (CDict (setitem key (CList (xs ++ [x])) d)) contract)
  | _, _ => Raise (Builtin AttributeError)
  end.

(** The number of records in the five lists of the validator. *)
Definition total_records (c : ContractValidator.class_attrs) : nat :=
  length (ContractValidator.call_violation c)
  + length (ContractValidator.import_violation c)
  + length (ContractValidator.undeclared_func c)
  + length (ContractValidator.undefined_func c)
  + length (ContractValidator.undecorated_class c).

(** A step that counts one error for every record it appends. *)
Definition balanced (st : ContractValidator.step) : Prop :=
  forall s,
    total_records (ContractValidator.cls (fst (st s)))
    + ContractValidator.error_count s
    = total_records (ContractValidator.cls s)
      + ContractValidator.error_count (fst (st s)).

(** Appending one record to one of the five lists. *)
Definition adds_one
           (f : ContractValidator.class_attrs -> ContractValidator.class_attrs)
  : Prop :=
  forall c, total_records (f c) = S (total_records c).

(** The records for the names of an [import] statement that are not in
    [allowed], in the order of the statement. *)
Definition disallowed_imports (allowed : list string) (names : list alias)
  : list (nat * string) :=
  map (fun n => (alias_lineno n, alias_name n))
      (filter (fun n => negb (mem (alias_name n) allowed)) names).

(** A step that never stops on a KeyError. *)
Definition no_key_error (st : ContractValidator.step) : Prop :=
  forall s k, snd (st s) <> Raise (Builtin (KeyError k)).

(** A decorator of the form [name(...)]. *)
Definition is_plain_call (d : expr) : bool :=
  match d with
  | Call _ (Name _) _ => true
  | _ => false
  end.

(** A decorator of the form [enforce_contract(...)]. *)
Definition is_enforce_contract (d : expr) : bool :=
  match d with
  | Call _ (Name id) _ => String.eqb "enforce_contract" id
  | _ => false
  end.

(** The calls among [nodes] whose resolved name is not in [allowed], as
    records for the function [name], in the order of the nodes. *)
Definition disallowed_calls (allowed : list string) (name : string)
           (nodes : list node) : list (nat * string * string) :=
  flat_map
    (fun cn =>
       match cn with
       | NExpr (Call lineno func _) =>
           match ContractValidator.called_name func with
           | Ok called =>
               if mem called allowed then [] else [(lineno, called, name)]
           | _ => []
           end
       | _ => []
       end)
    nodes.

(** A governed function whose body may read the contract dictionary: the
    decorator closes over the dictionary, and a body that calls a function
    governed by the same dictionary meets whatever the dictionary holds at
    that time.  [sh_call] gives the behaviour of the body for each state of
    the contract. *)
Record shared_fn : Type := mkShared {
  sh_lineno : nat;
  sh_name : string;
  sh_args : arguments;
  sh_body : list stmt;
  sh_decorators : list expr;
  sh_call : dict -> list value -> list (string * value) -> behaviour
}.

(** The function as it is while the contract is [contract]. *)
Definition under (g : shared_fn) (contract : dict) : pyfunc :=
  mkFunc (sh_lineno g) (sh_name g) (sh_args g) (sh_body g) (sh_decorators g)
         (sh_call g contract).

(** A function whose body does not read the contract. *)
Definition fixed (fn : pyfunc) : shared_fn :=
  mkShared (fn_lineno fn) (__name__ fn) (fn_args fn) (fn_body fn)
           (fn_decorators fn) (fun _ => fn_call fn).

(** [return f().returns] for a governed call [f()] that gave [r]: an
    exception goes on, a [Return] gives up its value. *)
Definition returns_of (r : res Return) : behaviour :=
  match r with
  | Ok x => Halts 0%Q (Returns (returns x))
  | Raise e => Halts 0%Q (Raises e)
  | Hang => Diverges
  end.

(** test/test_calls.py, lines 33-35:
[[
@enforce_contract(contract)
def caller():
    return called().returns
]]
    [called] is governed by the same dictionary, and is called from the
    frame of [caller]. *)
Definition caller : shared_fn := {|
  sh_lineno := 34;
  sh_name := "caller";
  sh_args := mkArguments [] [];
  sh_body := [Ast.Return (Some (Attribute (Call 35 (Name "called") []) "returns"))];
  sh_decorators := [TestCalls.decorator 33];
  sh_call := fun contract _ _ =>
    returns_of (wrapped contract TestCalls.called "caller" [] [])
|}.

(** The contract of test/test_calls.py after lines 75 and 79 of
    [test_callee]: [test_callee] may call [caller] and [caller] may call
    [called], while [called] does not have [caller] among its callers. *)
Definition contract_caller_let_in (switch : bool) : dict :=
  [ ("raise_on_contract_exception", CBool switch);
    ("functions", CList ["caller"; "called"]);
    ("caller", spec [] anything ["called"] (CInt 0) ["test_callee"]);
    ("called", spec [] anything [] (CInt 0) ["test_callee"]);
    ("allowable_imports", CList ["contract_util"]);
    ("global_allowed_calls", CList ["enforce_contract"]) ].

End Cases.

(* ===================================================================== *)
(** ** Statements of the specification, in its own words                  *)
(* ===================================================================== *)

Module Stated.
Import Ast ContractUtil ContractValidator Schema.

(** [declaredFunctions]: the names listed under ["functions"]. *)
Definition declared_functions (contract : dict) : list string :=
  match lookup "functions" contract with
  | Some (CList l) => l
  | _ => []
  end.

(** Section 4.3, step 1 read as the first check: a target whose name is not
    in [declaredFunctions] yields FunctionNotDeclared, whatever it calls. *)
Definition undeclared_target_is_FunctionNotDeclared : Prop :=
  forall contract fn function_caller args kwargs functions,
    lookup "functions" contract = Some (CList functions) ->
    mem (__name__ fn) functions = false ->
    exists v,
      try_body contract fn function_caller args kwargs = Raise (ContractException v)
      /\ kind_of v = Kind.FunctionNotDeclared.

(** Section 7: an exception raised by the governed function itself reaches
    the caller unchanged, whatever the switch. *)
Definition own_exception_propagates : Prop :=
  forall contract fn function_caller args kwargs runtime duration e,
    checks contract fn function_caller args kwargs = Ok tt ->
    max_runtime contract fn = Ok runtime ->
    fn_call fn args kwargs = Halts duration (Raises e) ->
    Qle_bool runtime 0%Q = true
    \/ is_alive runtime (Halts duration (Raises e)) = false ->
    wrapped contract fn function_caller args kwargs = Raise e.

(** Section 4.1: key [k] is absent from [d] or does not hold a [t]. *)
Definition entry_defect (d : dict) (k : string) (t : pytype) : Prop :=
  match lookup k d with
  | Some c => isinstance c t = false
  | None => True
  end.

(** A required global key is absent or of the wrong kind. *)
Definition global_defect (contract : dict) (schema : Schema.t) : Prop :=
  exists k t, In (k, t) (schema_globals schema) /\ entry_defect contract k t.

(** A declared function has no spec. *)
Definition missing_spec (contract : dict) : Prop :=
  exists f, In f (declared_functions contract) /\ lookup f contract = None.

(** A spec lacks a required per-function key or has it with the wrong kind. *)
Definition spec_defect (contract : dict) (schema : Schema.t) : Prop :=
  exists f spec k t,
    In f (declared_functions contract)
    /\ lookup f contract = Some spec
    /\ In (k, t) (schema_functions schema)
    /\ match spec with
       | CDict d => entry_defect d k t
       | _ => True
       end.

Definition schema_defect (contract : dict) (schema : Schema.t) : Prop :=
  global_defect contract schema \/ missing_spec contract \/ spec_defect contract schema.

Definition schema_validation_characterised : Prop :=
  forall contract,
    verify_contract_schema contract v1_schema = Raise ContractValidationException
    <-> schema_defect contract v1_schema.

(** Sections 3 and 4.1: the shape is checked at construction, before any
    enforcement, so a contract of invalid shape governs no call. *)
Definition validated_before_enforcement : Prop :=
  forall contract fn function_caller args kwargs,
    verify_contract_schema contract v1_schema = Raise ContractValidationException ->
    wrapped contract fn function_caller args kwargs = Raise ContractValidationException.

(** Every spec present for a declared function is a mapping. *)
Definition specs_are_mappings (contract : dict) : Prop :=
  forall f c,
    In f (declared_functions contract) ->
    lookup f contract = Some c ->
    exists d, c = CDict d.

(** Whether a definition of [name] occurs anywhere in the statement. *)
Fixpoint defines_stmt (name : string) (s : stmt) : bool :=
  let fix defines_any (ss : list stmt) : bool :=
    match ss with
    | [] => false
    | s' :: ss' => defines_stmt name s' || defines_any ss'
    end in
  match s with
  | FunctionDef _ n _ b _ => String.eqb name n || defines_any b
  | ClassDef _ _ _ b _ => defines_any b
  | If _ b o => defines_any b || defines_any o
  | _ => false
  end.

Definition defines (name : string) (tree : module) : bool :=
  existsb (defines_stmt name) tree.

(** Section 4.4: a name declared in [declaredFunctions] with no matching
    definition anywhere in the module is recorded as UndefinedFunction and
    counted. *)
Definition undefined_function_recorded : Prop :=
  forall contract tree shared name,
    In name (declared_functions contract) ->
    defines name tree = false ->
    let report := fst (analysis_pass contract tree shared) in
    In name (undefined_func (cls report)) /\ 0 < error_count report.

(** Section 7, mode switch idempotence: whenever a call raises a violation
    with the switch on, the same call with the switch off returns that
    violation. *)
Definition violation_delivered_under_either_switch : Prop :=
  forall contract (g : Cases.shared_fn) function_caller args kwargs v,
    wrapped (setitem Scenario.switch_key (CBool true) contract)
            (Cases.under g (setitem Scenario.switch_key (CBool true) contract))
            function_caller args kwargs
    = Raise (ContractException v) ->
    wrapped (setitem Scenario.switch_key (CBool false) contract)
            (Cases.under g (setitem Scenario.switch_key (CBool false) contract))
            function_caller args kwargs
    = Ok (mkReturn (Some v) VNone).

(** A call that reaches the parameter-value check with a declared parameter
    that is not bound ends in a lookup error. *)
Definition unbound_declared_param_raises_KeyError : Prop :=
  forall contract fn function_caller args kwargs arguments spec params,
    (forall c, position c < position ParamValue ->
               run_check contract fn c function_caller args kwargs = Ok tt) ->
    bind_arguments fn args kwargs = Ok arguments ->
    getitem contract (__name__ fn) = Ok spec ->
    py_getitem spec "params" = Ok (CDict params) ->
    (exists param, In param (map fst params) /\ lookup param arguments = None) ->
    exists param,
      wrapped contract fn function_caller args kwargs
      = Raise (Builtin (KeyError param)).

End Stated.

(* ===================================================================== *)
(** ** The test suite, replayed on the embedding                          *)
(* ===================================================================== *)

Section TestSuite.
Import ContractUtil Cases.

(** test_caller, lines 52-53: [called()] from [test_caller] raises. *)
Example test_caller_raises :
  wrapped TestCalls.contract TestCalls.called "test_caller" [] []
  = Raise (ContractException (CallerNotAllowed "test_caller" "called")).
Proof. reflexivity. Qed.

(** test_callee's context is allowed: [called().returns is True]. *)
Example test_called_from_test_callee :
  wrapped TestCalls.contract TestCalls.called "test_callee" [] []
  = Ok (mkReturn None (VBool true)).
Proof. reflexivity. Qed.

(** test_callee, lines 71-72: [caller()] raises, its call of [called] is
    not among its allowable calls. *)
Example test_callee_raises :
  wrapped TestCalls.contract (under caller TestCalls.contract) "test_callee" [] []
  = Raise (ContractException (CallNotAllowed "caller" "called")).
Proof. reflexivity. Qed.

(** test_callee, lines 75-81: after the three appends [caller()] runs
    [called()] under the same dictionary and returns its True. *)
Example test_callee_returns :
  exists c1 c2 c3,
    append_to TestCalls.contract "caller" "allowed_callers" "test_callee" = Ok c1
    /\ append_to c1 "called" "allowed_callers" "caller" = Ok c2
    /\ append_to c2 "caller" "allowable_calls" "called" = Ok c3
    /\ wrapped c3 (under caller c3) "test_callee" [] []
       = Ok (mkReturn None (VBool true)).
Proof. do 3 eexists. repeat split. Qed.

(** Lines 75 and 79 without line 77. *)
Example test_callee_without_line_77 :
  (c1 <- append_to TestCalls.contract "caller" "allowed_callers" "test_callee" ;;
   append_to c1 "caller" "allowable_calls" "called")
  = Ok (contract_caller_let_in true).
Proof. reflexivity. Qed.

(** test_contract_properties, lines 91-92: [missing()] raises. *)
Example test_missing_raises :
  wrapped TestCalls.contract TestCalls.missing "test_contract_properties" [] []
  = Raise (ContractException (NotDeclaredInContract "missing")).
Proof. reflexivity. Qed.

(** test_params, lines 60-61: [no_params(1)] raises. *)
Example test_no_params_raises :
  wrapped (TestParams.contract "y") TestParams.no_params "test_params" [VInt 1] []
  = Raise (ContractException UnboundParameters).
Proof. reflexivity. Qed.

(** Lines 64-65: the function declares [x], the contract [y]. *)
Example test_pos_param_undeclared :
  wrapped (TestParams.contract "y") TestParams.pos_param "test_params" [VInt 1] []
  = Raise (ContractException (ParamNotDeclared "x")).
Proof. reflexivity. Qed.

(** Lines 71-72, after the key is renamed to [x]. *)
Example test_pos_param_none :
  wrapped (TestParams.contract "x") TestParams.pos_param "test_params" [VNone] []
  = Raise (ContractException (ParamInvalid "x")).
Proof. reflexivity. Qed.

(** test_bad_return, lines 77-78. *)
Example test_bad_return_raises :
  wrapped (TestParams.contract "y") TestParams.bad_return "test_bad_return" [] []
  = Raise (ContractException (ReturnInvalid (VBool true))).
Proof. reflexivity. Qed.

(** test_time, line 32: [one_sec(0.2).returns == 0.2]. *)
Example test_time_ok :
  wrapped TestTimed.contract TestTimed.one_sec "test_time" [VFloat (1 # 5)] []
  = Ok (mkReturn None (VFloat (1 # 5))).
Proof. reflexivity. Qed.

(** test_time, lines 35-36: [one_sec(0.3)] raises. *)
Example test_time_too_long :
  wrapped TestTimed.contract TestTimed.one_sec "test_time" [VFloat (3 # 10)] []
  = Raise (ContractException (TimeoutExceeded "one_sec")).
Proof. reflexivity. Qed.

End TestSuite.

(* ===================================================================== *)
(** ** The order of the run-time checks                                   *)
(* ===================================================================== *)

Section CheckOrder.
Import ContractUtil.

Variable contract : dict.
Variable fn : pyfunc.
Variable function_caller : string.
Variable args : list value.
Variable kwargs : list (string * value).

Local Abbreviation body := (try_body contract fn function_caller args kwargs).
Local Abbreviation result c :=
  (run_check contract fn c function_caller args kwargs) (only parsing).

(** A failing check decides the call when the checks before it passed. *)
Lemma first_failure_decides (c : check) (e : exn) :
  (forall c', position c' < position c -> result c' = Ok tt) ->
  result c = Raise e ->
  body = Raise e.
Proof.
  intros Hbefore Hfail.
  assert (Hearlier : forall c', Nat.ltb (position c') (position c) = true -> result c' = Ok tt).
  { intros c' H. apply Hbefore. now apply Nat.ltb_lt. }
  clear Hbefore.
  unfold try_body, checks.
  destruct c; unfold run_check in Hfail;
    try (pose proof (Hearlier CallGraph eq_refl) as H0; unfold run_check in H0);
    try (pose proof (Hearlier Declaration eq_refl) as H1; unfold run_check in H1);
    try (pose proof (Hearlier Caller eq_refl) as H2; unfold run_check in H2);
    try (pose proof (Hearlier ParamDeclaration eq_refl) as H4; unfold run_check in H4);
    clear Hearlier;
    destruct (function_calls fn) as [calls | e0 | ]; cbn [bind] in *;
    try discriminate; try congruence;
    repeat match goal with
           | H : ?x = _ |- context [bind ?x _] => rewrite H; cbn [bind]
           end;
    try reflexivity;
    destruct (bind_arguments fn args kwargs) as [arguments | e1 | ]; cbn [bind] in *;
    try discriminate; try congruence;
    repeat match goal with
           | H : ?x = _ |- context [bind ?x _] => rewrite H; cbn [bind]
           end;
    reflexivity.
Qed.

(** When every check passes, the function is run and its value checked. *)
Lemma all_checks_pass_runs :
  (forall c, result c = Ok tt) ->
  body = (ret <- execute contract fn args kwargs ;; check_return contract fn ret).
Proof.
  intros H.
  pose proof (H CallGraph) as H0. pose proof (H Declaration) as H1.
  pose proof (H Caller) as H2. pose proof (H ParamDeclaration) as H4.
  pose proof (H ParamValue) as H5. clear H. unfold run_check in *.
  unfold try_body, checks.
  destruct (function_calls fn) as [calls | e0 | ]; cbn [bind] in *; try discriminate.
  rewrite H0, H1, H2; cbn [bind].
  destruct (bind_arguments fn args kwargs) as [arguments | e1 | ]; cbn [bind] in *;
    try discriminate.
  rewrite H4, H5. reflexivity.
Qed.

(** A target missing from [functions] whose calls pass the call-graph check
    gets the violation of line 95. *)
Lemma unlisted_target_after_call_graph (functions : list string) :
  lookup "functions" contract = Some (CList functions) ->
  mem (__name__ fn) functions = false ->
  result CallGraph = Ok tt ->
  body = Raise (ContractException FunctionNotSpecified).
Proof.
  intros Hl Hm H0.
  apply (first_failure_decides Declaration).
  - intros c' Hlt. destruct c'; cbn in Hlt; try lia. exact H0.
  - unfold run_check, check_declared, getitem. rewrite Hl. cbn [bind py_in].
    now rewrite Hm.
Qed.

End CheckOrder.

(* ===================================================================== *)
(** ** The checks do not read the switch                                  *)
(* ===================================================================== *)

Section Switch.
Import ContractUtil.

Lemma lookup_setitem {A : Type} (k k0 : string) (v : A) (d : list (string * A)) :
  lookup k (setitem k0 v d) = if String.eqb k k0 then Some v else lookup k d.
Proof.
  induction d as [| [k' v'] d IH]; cbn.
  - reflexivity.
  - destruct (String.eqb_spec k0 k') as [-> | Hne]; cbn.
    + destruct (String.eqb k k'); reflexivity.
    + rewrite IH.
      destruct (String.eqb_spec k k') as [-> | Hne'].
      * destruct (String.eqb_spec k' k0) as [-> | _]; [now elim Hne | reflexivity].
      * reflexivity.
Qed.

Lemma setitem_same_but_bools (k : string) (b b' : bool) (c : dict) :
  same_but_bools (setitem k (CBool b) c) (setitem k (CBool b') c).
Proof.
  intros k0. rewrite !lookup_setitem.
  destruct (String.eqb k0 k); [right; eauto | now left].
Qed.

Variables c c' : dict.
Hypothesis Hsame : same_but_bools c c'.
Variable fn : pyfunc.

(** Reading a key and then subscripting or searching what it holds gives
    the same in both contracts. *)
Lemma getitem_then {A : Type} (k : string) (f : cval -> res A) :
  (forall b b', f (CBool b) = f (CBool b')) ->
  (x <- getitem c k ;; f x) = (x <- getitem c' k ;; f x).
Proof.
  intros Hf. unfold getitem.
  destruct (Hsame k) as [-> | (b & b' & -> & ->)]; [reflexivity | apply Hf].
Qed.

Lemma has_key_same (k : string) : has_key k c = has_key k c'.
Proof.
  unfold has_key.
  destruct (Hsame k) as [-> | (b & b' & -> & ->)]; reflexivity.
Qed.

Lemma validate_calls_same (calls : list string) :
  validate_calls c fn calls = validate_calls c' fn calls.
Proof.
  induction calls as [| call rest IH]; [reflexivity |].
  cbn [validate_calls]. rewrite IH, has_key_same.
  destruct (negb (has_key (__name__ fn) c')); [reflexivity |].
  f_equal.
  rewrite (getitem_then (__name__ fn)) by reflexivity.
  destruct (getitem c' (__name__ fn)) as [spec | |]; cbn [bind]; try reflexivity.
  destruct (py_getitem spec "allowable_calls") as [al | |]; cbn [bind]; try reflexivity.
  destruct (py_in call al) as [[|] | |]; cbn [bind]; try reflexivity.
  apply getitem_then. reflexivity.
Qed.

Lemma check_declared_same : check_declared c fn = check_declared c' fn.
Proof. unfold check_declared. apply getitem_then. reflexivity. Qed.

Lemma validate_caller_same (function_caller : string) :
  validate_caller c fn function_caller = validate_caller c' fn function_caller.
Proof. unfold validate_caller. apply getitem_then. reflexivity. Qed.

Lemma params_declared_loop_same (arguments : list (string * value)) :
  params_declared_loop c fn arguments = params_declared_loop c' fn arguments.
Proof.
  induction arguments as [| [arg val] rest IH]; [reflexivity |].
  cbn [params_declared_loop]. rewrite IH.
  apply getitem_then. reflexivity.
Qed.

Lemma check_param_values_same (arguments : list (string * value)) :
  check_param_values c fn arguments = check_param_values c' fn arguments.
Proof. unfold check_param_values. apply getitem_then. reflexivity. Qed.

Lemma max_runtime_same : max_runtime c fn = max_runtime c' fn.
Proof. unfold max_runtime. apply getitem_then. reflexivity. Qed.

Lemma check_return_same (ret : value) : check_return c fn ret = check_return c' fn ret.
Proof. unfold check_return. apply getitem_then. reflexivity. Qed.

Lemma checks_same (function_caller : string) (args : list value)
      (kwargs : list (string * value)) :
  checks c fn function_caller args kwargs = checks c' fn function_caller args kwargs.
Proof.
  unfold checks, check_params_declared.
  rewrite check_declared_same, validate_caller_same.
  destruct (function_calls fn) as [calls | |]; cbn [bind]; try reflexivity.
  rewrite validate_calls_same.
  destruct (validate_calls c' fn calls); cbn [bind]; try reflexivity.
  destruct (check_declared c' fn); cbn [bind]; try reflexivity.
  destruct (validate_caller c' fn function_caller); cbn [bind]; try reflexivity.
  destruct (bind_arguments fn args kwargs) as [arguments | |]; cbn [bind];
    try reflexivity.
  now rewrite params_declared_loop_same, check_param_values_same.
Qed.

Lemma execute_same (args : list value) (kwargs : list (string * value)) :
  execute c fn args kwargs = execute c' fn args kwargs.
Proof. unfold execute. now rewrite max_runtime_same. Qed.

(** Nothing inside the [try] depends on the truth value of a top-level
    key. *)
Lemma try_body_same (function_caller : string) (args : list value)
      (kwargs : list (string * value)) :
  try_body c fn function_caller args kwargs = try_body c' fn function_caller args kwargs.
Proof.
  unfold try_body. rewrite checks_same, execute_same.
  destruct (checks c' fn function_caller args kwargs); cbn [bind]; try reflexivity.
  destruct (execute c' fn args kwargs); cbn [bind]; try reflexivity.
  apply check_return_same.
Qed.

End Switch.

(* ===================================================================== *)
(** ** Properties of the run-time engine                                  *)
(* ===================================================================== *)

Section Engine.
Import ContractUtil Scenario Cases.

(** C1, as stated, fails: [worker] is not listed in [functions], its
    contract section allows it no call, and its body calls [helper]; the
    call-graph loop runs first and the violation is CallNotAllowed. *)
Lemma undeclared_target_call_not_allowed :
  ~ Stated.undeclared_target_is_FunctionNotDeclared.
Proof.
  intros H.
  destruct (H contract_worker_unlisted worker "<module>" [] [] [] eq_refl eq_refl)
    as (v & Hv & Hk).
  vm_compute in Hv. inversion Hv; subst v. discriminate Hk.
Qed.

(** C1 (amended).  The checks run in the order call graph, declaration,
    caller, parameter binding, parameter declaration, parameter value; the
    first one that fails decides the call; when all pass the function is run
    and its value checked.  A target that is not listed in [functions] and
    whose extracted calls pass the call-graph check gets the
    FunctionNotDeclared violation of the declaration check. *)
Theorem checks_run_in_source_order
        (contract : dict) (fn : pyfunc) (function_caller : string)
        (args : list value) (kwargs : list (string * value)) :
  (forall c e,
      (forall c', position c' < position c ->
                  run_check contract fn c' function_caller args kwargs = Ok tt) ->
      run_check contract fn c function_caller args kwargs = Raise e ->
      try_body contract fn function_caller args kwargs = Raise e)
  /\ ((forall c, run_check contract fn c function_caller args kwargs = Ok tt) ->
      try_body contract fn function_caller args kwargs
      = (ret <- execute contract fn args kwargs ;; check_return contract fn ret))
  /\ (forall functions,
         lookup "functions" contract = Some (CList functions) ->
         mem (__name__ fn) functions = false ->
         run_check contract fn CallGraph function_caller args kwargs = Ok tt ->
         try_body contract fn function_caller args kwargs
         = Raise (ContractException FunctionNotSpecified)
         /\ kind_of FunctionNotSpecified = Kind.FunctionNotDeclared).
Proof.
  split; [| split].
  - intros c e. apply first_failure_decides.
  - apply all_checks_pass_runs.
  - intros functions Hl Hm H0. split; [| reflexivity].
    now apply unlisted_target_after_call_graph with functions.
Qed.

(** The caller check of test_caller is reached and decides the call. *)
Lemma checks_run_in_source_order_witness :
  try_body TestCalls.contract TestCalls.called "test_caller" [] []
  = Raise (ContractException (CallerNotAllowed "test_caller" "called")).
Proof.
  apply (proj1 (checks_run_in_source_order
                  TestCalls.contract TestCalls.called "test_caller" [] []) Caller).
  - intros c' H. destruct c'; simpl in H; try lia; reflexivity.
  - reflexivity.
Defined.

(** What the handler does with a violation under either value of the
    switch. *)
Lemma delivery_by_switch
      (contract : dict) (fn : pyfunc) (function_caller : string)
      (args : list value) (kwargs : list (string * value))
      (v : violation) (b : bool) :
  try_body (setitem switch_key (CBool b) contract) fn function_caller args kwargs
  = Raise (ContractException v) ->
  wrapped (setitem switch_key (CBool b) contract) fn function_caller args kwargs
  = if b then Raise (ContractException v) else Ok (mkReturn (Some v) VNone).
Proof.
  intros Hv. unfold wrapped, handler, getitem.
  rewrite Hv, lookup_setitem, String.eqb_refl. cbn [bind truthy].
  reflexivity.
Qed.

(** The checks read the source and the signature of the function, not
    what its body does. *)
Lemma checks_under (g : shared_fn) (c c1 c2 : dict) (function_caller : string)
      (args : list value) (kwargs : list (string * value)) :
  checks c (under g c1) function_caller args kwargs
  = checks c (under g c2) function_caller args kwargs.
Proof. reflexivity. Qed.

(** A body that behaves the same on the arguments of the call under two
    states of the contract gives the same call. *)
Lemma try_body_under (g : shared_fn) (c c1 c2 : dict) (function_caller : string)
      (args : list value) (kwargs : list (string * value)) :
  sh_call g c1 args kwargs = sh_call g c2 args kwargs ->
  try_body c (under g c1) function_caller args kwargs
  = try_body c (under g c2) function_caller args kwargs.
Proof.
  intros H. unfold try_body, execute.
  change (fn_call (under g c1) args kwargs) with (sh_call g c1 args kwargs).
  rewrite H. reflexivity.
Qed.

(** [caller()] from [test_callee] when [called] does not have [caller]
    among its callers, with the switch on and with the switch off. *)
Lemma nested_call_with_switch_on :
  wrapped (contract_caller_let_in true) (under caller (contract_caller_let_in true))
          "test_callee" [] []
  = Raise (ContractException (CallerNotAllowed "caller" "called")).
Proof. reflexivity. Qed.

Lemma nested_call_with_switch_off :
  wrapped (contract_caller_let_in false) (under caller (contract_caller_let_in false))
          "test_callee" [] []
  = Ok (mkReturn None VNone).
Proof. reflexivity. Qed.







(** The loop over [params.items()] stops with a KeyError at the first
    declared parameter that was not bound, when the validators of the ones
    before it accept. *)
Lemma param_values_loop_first_unbound
      (before : list (string * cval)) (param : string) (validator : cval)
      (after : list (string * cval)) (arguments : list (string * value)) :
  lookup param arguments = None ->
  (forall p f, In (p, f) before ->
               exists val, lookup p arguments = Some val /\ py_call f val = Ok true) ->
  param_values_loop (before ++ (param, validator) :: after) arguments
  = Raise (Builtin (KeyError param)).
Proof.
  intros Hnone. induction before as [| [p f] before IH]; intros Hvalid.
  - cbn [app param_values_loop]. now rewrite Hnone.
  - cbn [app param_values_loop].
    destruct (Hvalid p f (or_introl eq_refl)) as (val & Hl & Hc).
    rewrite Hl, Hc. cbn [bind].
    apply IH. intros p' f' Hin. apply Hvalid. now right.
Qed.

(** C10, as stated, fails: [scale(None)] leaves [b] to its default, so [b]
    is declared and not bound; the loop comes to [a] first, whose validator
    refuses None, and the call ends in the violation ParamInvalid, which
    the handler returns when the switch is off.  No lookup error occurs. *)
Lemma unbound_declared_param_after_invalid_one :
  ~ Stated.unbound_declared_param_raises_KeyError.
Proof.
  intros H.
  destruct (H (contract_scale false) scale "<module>" [VNone] [] [("a", VNone)]
              (Scenario.spec [("a", TestParams.is_not_none);
                              ("b", TestParams.is_not_none)]
                             anything [] (CFloat 0) ["<module>"])
              [("a", TestParams.is_not_none); ("b", TestParams.is_not_none)])
    as (param & Hp).
  - intros c Hc. destruct c; simpl in Hc; try lia; reflexivity.
  - reflexivity.
  - reflexivity.
  - reflexivity.
  - exists "b". split; [simpl; auto | reflexivity].
  - vm_compute in Hp. discriminate Hp.
Qed.

(** C10 (amended).  When a call reaches the parameter-value check and the
    declared parameters that come before [param] in ["params"] are bound to
    values their validators accept, while [param] is declared and not
    bound, the subscript [arguments[param]] fails with a KeyError; it is no
    ContractException, so the handler does not see it and it reaches the
    caller whatever the switch says. *)
Theorem first_unbound_declared_param_escapes
        (contract : dict) (fn : pyfunc) (function_caller : string)
        (args : list value) (kwargs : list (string * value))
        (arguments : list (string * value)) (spec : cval)
        (before : list (string * cval)) (param : string) (validator : cval)
        (after : list (string * cval)) :
  (forall c, position c < position ParamValue ->
             run_check contract fn c function_caller args kwargs = Ok tt) ->
  bind_arguments fn args kwargs = Ok arguments ->
  getitem contract (__name__ fn) = Ok spec ->
  py_getitem spec "params" = Ok (CDict (before ++ (param, validator) :: after)) ->
  lookup param arguments = None ->
  (forall p f, In (p, f) before ->
               exists val, lookup p arguments = Some val /\ py_call f val = Ok true) ->
  wrapped contract fn function_caller args kwargs = Raise (Builtin (KeyError param))
  /\ is_ContractException (Builtin (KeyError param)) = false.
Proof.
  intros Hbefore Hbind Hspec Hparams Hnone Hvalid.
  split; [| reflexivity].
  assert (Hbody : try_body contract fn function_caller args kwargs
                  = Raise (Builtin (KeyError param))).
  { apply (first_failure_decides contract fn function_caller args kwargs ParamValue).
    - exact Hbefore.
    - unfold run_check, check_param_values.
      rewrite Hbind. cbn [bind]. rewrite Hspec. cbn [bind].
      rewrite Hparams. cbn [bind py_items].
      now apply param_values_loop_first_unbound. }
  unfold wrapped. now rewrite Hbody.
Qed.

(** [scale(5)] leaves [b] to its default; with the switch off the KeyError
    still reaches the caller. *)
Lemma first_unbound_declared_param_escapes_witness :
  wrapped (contract_scale false) scale "<module>" [VInt 5] []
  = Raise (Builtin (KeyError "b"))
  /\ is_ContractException (Builtin (KeyError "b")) = false.
Proof.
  refine (first_unbound_declared_param_escapes
            (contract_scale false) scale "<module>" [VInt 5] [] [("a", VInt 5)]
            _ [("a", TestParams.is_not_none)] "b" TestParams.is_not_none []
            _ eq_refl eq_refl eq_refl eq_refl _).
  - intros c H. destruct c; simpl in H; try lia; reflexivity.
  - intros p f [Hin | []]. inversion Hin; subst.
    exists (VInt 5). split; reflexivity.
Defined.

End Engine.

(* ===================================================================== *)
(** ** The two call-graph extractors                                      *)
(* ===================================================================== *)

Section Extractors.
Import Ast ContractUtil ContractValidator Scenario.

Lemma list_sum_cons (a : nat) (l : list nat) : list_sum (a :: l) = a + list_sum l.
Proof. reflexivity. Qed.

Lemma list_sum_map_node (f : expr -> node) (es : list expr) :
  (forall e, node_size (f e) = expr_size e) ->
  list_sum (map node_size (map f es)) = list_sum (map expr_size es).
Proof.
  intros Hf. induction es as [| e es IH]; cbn [map]; [reflexivity |].
  now rewrite !list_sum_cons, Hf, IH.
Qed.

Lemma list_sum_map_stmt (ss : list stmt) :
  list_sum (map node_size (map NStmt ss)) = list_sum (map stmt_size ss).
Proof.
  induction ss as [| s ss IH]; cbn [map]; [reflexivity |].
  now rewrite !list_sum_cons, IH.
Qed.

Lemma list_sum_map_alias (names : list alias) :
  list_sum (map node_size (map NAlias names)) = length names.
Proof.
  induction names as [| n names IH]; cbn [map length]; [reflexivity |].
  now rewrite !list_sum_cons, IH.
Qed.

(** A node counts for one more than its children together. *)
Lemma node_size_children (n : node) :
  node_size n = S (list_sum (map node_size (iter_child_nodes n))).
Proof.
  assert (He : forall es, list_sum (map node_size (map NExpr es))
                          = list_sum (map expr_size es)).
  { intros es. now apply list_sum_map_node. }
  assert (Hnil : list_sum [] = 0) by reflexivity.
  destruct n as [e | s | a | a]; cbn [iter_child_nodes].
  - destruct e; cbn [node_size expr_size map];
      rewrite ?list_sum_cons, ?He, ?Hnil; cbn [node_size]; lia.
  - destruct s; try destruct value; try destruct exc;
      cbn [node_size stmt_size option_list map];
      rewrite ?map_app, ?list_sum_app, ?list_sum_cons, ?map_app, ?list_sum_app,
        ?He, ?list_sum_map_stmt, ?list_sum_map_alias, ?Hnil;
      cbn [node_size]; lia.
  - cbn [node_size]. now rewrite He.
  - reflexivity.
Qed.

(** [walk] is given steps enough to empty its queue: more steps yield the
    same nodes. *)
Lemma walk_queue_enough (steps : nat) (todo : list node) :
  list_sum (map node_size todo) <= steps ->
  walk_queue steps todo = walk_queue (list_sum (map node_size todo)) todo.
Proof.
  revert todo.
  induction steps as [| steps IH]; intros todo Hle.
  - destruct todo as [| n rest]; [reflexivity |].
    cbn [map] in Hle. rewrite list_sum_cons, (node_size_children n) in Hle. lia.
  - destruct todo as [| n rest]; [reflexivity |].
    cbn [map] in *. rewrite list_sum_cons, (node_size_children n) in *.
    cbn [Nat.add walk_queue].
    assert (Hsum : list_sum (map node_size (rest ++ iter_child_nodes n))
                   = list_sum (map node_size (iter_child_nodes n))
                     + list_sum (map node_size rest)).
    { rewrite map_app, list_sum_app. lia. }
    rewrite <- Hsum. f_equal. apply IH. lia.
Qed.

(** C2.  The static validator resolves a call through an attribute to the
    name of the base object and reports it under that name; the run-time
    extractor reads [node.func.id] without that fallback and stops with an
    AttributeError, which reaches the caller of the governed function
    whatever the switch says. *)
Theorem attribute_call_resolution :
  (forall obj attr, called_name (Attribute (Name obj) attr) = Ok obj)
  /\ call_violation
       (cls (fst (analysis_pass (contract_method_call true) module_method_call
                                class_initial)))
     = [(3, "obj", "method_call")]
  /\ (forall lineno obj attr xs calls,
         visit_expr (Call lineno (Attribute (Name obj) attr) xs) calls
         = Raise (Builtin AttributeError))
  /\ function_calls method_call = Raise (Builtin AttributeError)
  /\ (forall switch,
         wrapped (contract_method_call switch) method_call "<module>" [] []
         = Raise (Builtin AttributeError)).
Proof.
  repeat split.
Qed.

(** C3.  [visit_Call] records the name of a call and does not visit what is
    inside it: for [a(b())] the extracted names are [a] and the decorator's,
    [b] is not among them, and the governed call goes through although [b]
    is outside the allowed names; the static validator, which walks every
    node, reports [b]. *)
Theorem nested_call_not_extracted :
  (forall lineno f xs calls,
      visit_expr (Call lineno (Name f) xs) calls = Ok (calls ++ [f]))
  /\ function_calls nested = Ok ["a"; "enforce_contract"]
  /\ validate_calls contract_nested nested ["a"; "b"; "enforce_contract"]
     = Raise (ContractException (CallNotAllowed "nested" "b"))
  /\ wrapped contract_nested nested "<module>" [] [] = Ok (mkReturn None VNone)
  /\ call_violation
       (cls (fst (analysis_pass contract_nested module_nested class_initial)))
     = [(3, "b", "nested")].
Proof.
  repeat split.
Qed.

End Extractors.

(* ===================================================================== *)
(** ** Schema validation                                                  *)
(* ===================================================================== *)

Section SchemaValidation.
Import ContractUtil ContractValidator Schema Stated Scenario.

Lemma check_globals_spec (contract : dict) (globals : list (string * pytype)) :
  (check_globals contract globals = Ok tt
   /\ forall k t, In (k, t) globals -> ~ entry_defect contract k t)
  \/ (check_globals contract globals = Raise ContractValidationException
      /\ exists k t, In (k, t) globals /\ entry_defect contract k t).
Proof.
  induction globals as [| [k t] globals IH].
  - left. split; [reflexivity | intros k t []].
  - cbn [check_globals]. unfold has_key, getitem.
    destruct (lookup k contract) as [c |] eqn:Hk; cbn [negb bind].
    + destruct (isinstance c t) eqn:Hi; cbn [negb].
      * destruct IH as [[Hok Hall] | [Hbad Hex]].
        -- left. split; [exact Hok |].
           intros k' t' [Heq | Hin]; [| now apply Hall].
           inversion Heq; subst. unfold entry_defect. rewrite Hk. congruence.
        -- right. split; [exact Hbad |].
           destruct Hex as (k' & t' & Hin & Hd). exists k', t'. split; [now right | exact Hd].
      * right. split; [reflexivity |]. exists k, t. split; [now left |].
        unfold entry_defect. now rewrite Hk.
    + right. split; [reflexivity |]. exists k, t. split; [now left |].
      unfold entry_defect. now rewrite Hk.
Qed.

Lemma check_function_keys_spec (d : dict) (keys : list (string * pytype)) :
  (check_function_keys (CDict d) keys = Ok tt
   /\ forall k t, In (k, t) keys -> ~ entry_defect d k t)
  \/ (check_function_keys (CDict d) keys = Raise ContractValidationException
      /\ exists k t, In (k, t) keys /\ entry_defect d k t).
Proof.
  induction keys as [| [k t] keys IH].
  - left. split; [reflexivity | intros k t []].
  - cbn [check_function_keys py_in py_getitem bind]. unfold has_key, getitem.
    destruct (lookup k d) as [c |] eqn:Hk; cbn [negb bind].
    + destruct (isinstance c t) eqn:Hi; cbn [negb].
      * destruct IH as [[Hok Hall] | [Hbad Hex]].
        -- left. split; [exact Hok |].
           intros k' t' [Heq | Hin]; [| now apply Hall].
           inversion Heq; subst. unfold entry_defect. rewrite Hk. congruence.
        -- right. split; [exact Hbad |].
           destruct Hex as (k' & t' & Hin & Hd). exists k', t'. split; [now right | exact Hd].
      * right. split; [reflexivity |]. exists k, t. split; [now left |].
        unfold entry_defect. now rewrite Hk.
    + right. split; [reflexivity |]. exists k, t. split; [now left |].
      unfold entry_defect. now rewrite Hk.
Qed.

Lemma check_functions_spec (contract : dict) (keys : list (string * pytype))
      (functions : list string) :
  (forall f c, In f functions -> lookup f contract = Some c -> exists d, c = CDict d) ->
  (check_functions contract keys functions = Ok tt
   /\ forall f, In f functions ->
                exists d, lookup f contract = Some (CDict d)
                          /\ forall k t, In (k, t) keys -> ~ entry_defect d k t)
  \/ (check_functions contract keys functions = Raise ContractValidationException
      /\ exists f, In f functions
                   /\ (lookup f contract = None
                       \/ exists d k t, lookup f contract = Some (CDict d)
                                        /\ In (k, t) keys /\ entry_defect d k t)).
Proof.
  intros Hmap.
  induction functions as [| f functions IH].
  - left. split; [reflexivity | intros f []].
  - cbn [check_functions]. unfold has_key, getitem.
    destruct (lookup f contract) as [c |] eqn:Hf; cbn [negb bind].
    + destruct (Hmap f c (or_introl eq_refl) Hf) as [d ->].
      destruct (check_function_keys_spec d keys) as [[Hok Hall] | [Hbad Hex]].
      * rewrite Hok. cbn [bind].
        destruct IH as [[Hok' Hall'] | [Hbad' Hex']].
        -- intros g c Hin. apply Hmap. now right.
        -- left. split; [exact Hok' |].
           intros g [<- | Hin]; [exists d; now split | now apply Hall'].
        -- right. split; [exact Hbad' |].
           destruct Hex' as (g & Hin & Hg). exists g. split; [now right | exact Hg].
      * rewrite Hbad. cbn [bind]. right. split; [reflexivity |].
        destruct Hex as (k & t & Hin & Hd).
        exists f. split; [now left |]. right. now exists d, k, t.
    + right. split; [reflexivity |]. exists f. split; [now left | now left].
Qed.

(** With specs that are mappings, validation either passes on a contract
    without defect or raises on one with a defect. *)
Lemma verify_contract_schema_spec (contract : dict) (schema : Schema.t) :
  In ("functions", Tlist) (schema_globals schema) ->
  specs_are_mappings contract ->
  (verify_contract_schema contract schema = Ok tt
   /\ ~ schema_defect contract schema)
  \/ (verify_contract_schema contract schema = Raise ContractValidationException
      /\ schema_defect contract schema).
Proof.
  intros Hfun Hmap. unfold verify_contract_schema.
  destruct (check_globals_spec contract (schema_globals schema))
    as [[Hok Hall] | [Hbad Hex]].
  - rewrite Hok. cbn [bind].
    pose proof (Hall _ _ Hfun) as Hfl. unfold entry_defect in Hfl.
    unfold specs_are_mappings, declared_functions in Hmap.
    unfold getitem.
    destruct (lookup "functions" contract) as [c |] eqn:Hl; [| now elim Hfl].
    destruct c; try (now elim Hfl). cbn [bind py_iter].
    destruct (check_functions_spec contract (schema_functions schema) l Hmap)
      as [[Hok' Hall'] | [Hbad' Hex']].
    + left. split; [exact Hok' |].
      intros [(k & t & Hin & Hd) | [(f & Hin & Hnone) | (f & spec & k & t & Hin & Hs & Hk & Hd)]].
      * exact (Hall k t Hin Hd).
      * unfold declared_functions in Hin. rewrite Hl in Hin.
        destruct (Hall' f Hin) as (d & Hsome & _). congruence.
      * unfold declared_functions in Hin. rewrite Hl in Hin.
        destruct (Hall' f Hin) as (d & Hsome & Hgood).
        rewrite Hsome in Hs. inversion Hs; subst spec.
        exact (Hgood k t Hk Hd).
    + right. split; [exact Hbad' |].
      destruct Hex' as (f & Hin & [Hnone | (d & k & t & Hsome & Hk & Hd)]).
      * right; left. exists f. unfold declared_functions. rewrite Hl. now split.
      * right; right. exists f, (CDict d), k, t.
        unfold declared_functions. rewrite Hl. now repeat split.
  - rewrite Hbad. cbn [bind]. right. split; [reflexivity |]. now left.
Qed.

(** C7, as stated, fails twice.  The contract of test/test_calls.py gives
    [max_runtime_seconds] as the integer [0], so validation raises on it, yet
    [enforce_contract] never validates and the governed call returns its
    value.  And a contract whose section for a declared function is [None]
    has a defect, yet validation stops with a TypeError. *)
Lemma schema_validation_not_at_enforcement :
  ~ validated_before_enforcement /\ ~ schema_validation_characterised.
Proof.
  split.
  - intros H.
    specialize (H TestCalls.contract TestCalls.called "test_callee" [] [] eq_refl).
    vm_compute in H. discriminate H.
  - intros H.
    destruct (H contract_none_spec) as [_ H2].
    assert (Hd : schema_defect contract_none_spec v1_schema).
    { right; right. exists "f", CNone, "params", Tdict.
      repeat split; cbn; auto. }
    specialize (H2 Hd). vm_compute in H2. discriminate H2.
Qed.

(** C7 (amended).  For a contract whose sections for declared functions are
    mappings, validation raises SchemaInvalid exactly when a required global
    key is absent or of the wrong kind, a declared function has no section,
    or a section lacks a required key or has it with the wrong kind.  The
    static validator's entry point validates first: on SchemaInvalid it
    stops, whatever the contract says about raising, and it analyses only a
    contract that passed.  The run-time engine does not validate. *)
Theorem schema_validation_by_validator :
  (forall contract schema,
      In ("functions", Tlist) (schema_globals schema) ->
      specs_are_mappings contract ->
      (verify_contract_schema contract schema = Raise ContractValidationException
       <-> schema_defect contract schema))
  /\ (forall contract file shared,
         verify_contract_schema contract v1_schema = Raise ContractValidationException ->
         main contract file shared = SchemaInvalid)
  /\ (forall contract file shared report,
         main contract file shared = Analysed report ->
         verify_contract_schema contract v1_schema = Ok tt).
Proof.
  split; [| split].
  - intros contract schema Hfun Hmap.
    destruct (verify_contract_schema_spec contract schema Hfun Hmap)
      as [[Hok Hno] | [Hbad Hyes]].
    + rewrite Hok. split; [discriminate | intros Hd; now elim Hno].
    + rewrite Hbad. split; [intros _; exact Hyes | reflexivity].
  - intros contract file shared Hv. unfold main. now rewrite Hv.
  - intros contract file shared report. unfold main.
    destruct (verify_contract_schema contract v1_schema) as [[] | e |];
      [reflexivity | destruct e; discriminate | discriminate].
Qed.

(** The contract of test/test_calls.py: it has a defect, validation raises,
    and [main] stops before any analysis. *)
Lemma schema_validation_by_validator_witness :
  (verify_contract_schema TestCalls.contract v1_schema
   = Raise ContractValidationException
   <-> schema_defect TestCalls.contract v1_schema)
  /\ main TestCalls.contract (Some module_g) class_initial = SchemaInvalid.
Proof.
  split.
  - apply (proj1 schema_validation_by_validator).
    + simpl; auto.
    + intros f c [<- | [<- | []]] H; vm_compute in H; inversion H; eexists;
        reflexivity.
  - apply (proj1 (proj2 schema_validation_by_validator)). reflexivity.
Defined.

End SchemaValidation.

(* ===================================================================== *)
(** ** The static validator                                               *)
(* ===================================================================== *)

Section StaticValidator.
Import Ast ContractUtil ContractValidator Stated Scenario.

(** C8.  The five lists are attributes of the class, not of the visitor:
    a second pass over the same module with the same contract starts from
    the records of the first and ends with each record twice, while its
    [error_count], bound on the instance, counts one. *)
Theorem second_pass_keeps_first_records :
  let first := fst (analysis_pass contract_valid module_g class_initial) in
  let second := fst (analysis_pass contract_valid module_g (cls first)) in
  undeclared_func (cls first) = [(1, "g")]
  /\ error_count first = 1
  /\ undeclared_func (cls second) = [(1, "g"); (1, "g")]
  /\ error_count second = 1
  /\ undeclared_func (cls second) <> undeclared_func (cls first).
Proof.
  cbv zeta. repeat split. vm_compute. discriminate.
Qed.

Variable contract : dict.

Lemma appends_undefined_weaken (P Q : string -> Prop) (st : step) :
  (forall n, P n -> Q n) -> appends_undefined P st -> appends_undefined Q st.
Proof.
  intros HPQ H s. destruct (H s) as (l & Hl & HP).
  exists l. split; [exact Hl | intros n Hn; apply HPQ, HP, Hn].
Qed.

Lemma appends_none (P : string -> Prop) (st : step) :
  (forall s, undefined_func (cls (fst (st s))) = undefined_func (cls s)) ->
  appends_undefined P st.
Proof.
  intros H s. exists []. rewrite app_nil_r. split; [apply H | intros n []].
Qed.

Lemma appends_seq (P : string -> Prop) (a b : step) :
  appends_undefined P a -> appends_undefined P b -> appends_undefined P (seq a b).
Proof.
  intros Ha Hb s. unfold seq.
  destruct (Ha s) as (la & Hla & HPa).
  destruct (a s) as [s1 [u | e |]] eqn:Has; cbn [fst] in *;
    try (exists la; now split).
  destruct (Hb s1) as (lb & Hlb & HPb).
  exists (la ++ lb). rewrite app_assoc, <- Hla. split; [exact Hlb |].
  intros n Hn. apply in_app_or in Hn. destruct Hn; auto.
Qed.

Lemma appends_eval {A : Type} (P : string -> Prop) (r : res A) (k : A -> step) :
  (forall a, appends_undefined P (k a)) -> appends_undefined P (eval r k).
Proof.
  intros Hk s. unfold eval. destruct r as [a | e |].
  - apply Hk.
  - exists []. rewrite app_nil_r. split; [reflexivity | intros n []].
  - exists []. rewrite app_nil_r. split; [reflexivity | intros n []].
Qed.

Lemma appends_done (P : string -> Prop) : appends_undefined P done.
Proof. now apply appends_none. Qed.

Lemma appends_count_error (P : string -> Prop) : appends_undefined P count_error.
Proof. now apply appends_none. Qed.

Lemma appends_if (P : string -> Prop) (b : bool) (x y : step) :
  appends_undefined P x -> appends_undefined P y ->
  appends_undefined P (if b then x else y).
Proof. now destruct b. Qed.

Lemma appends_visit_Import (P : string -> Prop) (names : list alias) :
  appends_undefined P (visit_Import contract names).
Proof.
  induction names as [| n names IH]; cbn [visit_Import].
  - apply appends_done.
  - apply appends_eval. intros allowed. apply appends_if; [exact IH |].
    apply appends_seq; [apply appends_count_error |].
    apply appends_seq; [now apply appends_none | exact IH].
Qed.

Lemma appends_visit_ImportFrom (P : string -> Prop) (lineno : nat) (module : string) :
  appends_undefined P (visit_ImportFrom contract lineno module).
Proof.
  apply appends_eval. intros allowed. apply appends_if; [apply appends_done |].
  apply appends_seq; [apply appends_count_error | now apply appends_none].
Qed.

Lemma appends_check_node (P : string -> Prop) (allowed : list string)
      (name : string) (cn : node) :
  appends_undefined P (check_node contract allowed name cn).
Proof.
  destruct cn as [e | s | a | a]; cbn [check_node]; try apply appends_done.
  - destruct e; try apply appends_done.
    apply appends_eval. intros called. apply appends_if.
    + apply appends_seq; [now apply appends_none | apply appends_count_error].
    + now apply appends_none.
  - destruct s; try apply appends_done.
    + apply appends_visit_Import.
    + apply appends_visit_ImportFrom.
Qed.

Lemma appends_walk_loop (P : string -> Prop) (allowed : list string)
      (name : string) (nodes : list node) :
  appends_undefined P (walk_loop contract allowed name nodes).
Proof.
  induction nodes as [| cn nodes IH]; cbn [walk_loop].
  - apply appends_done.
  - apply appends_seq; [apply appends_check_node | exact IH].
Qed.

Lemma appends_visit_FunctionDef (node : stmt) (lineno : nat) (name : string) :
  appends_undefined (eq name) (visit_FunctionDef contract node lineno name).
Proof.
  apply appends_eval. intros declared. apply appends_if.
  - apply appends_seq; [now apply appends_none |].
    intros s. unfold try_walk.
    pose proof (appends_eval (eq name) (allowed_calls_of contract name)
                  (fun allowed => walk_loop contract allowed name (walk (NStmt node)))
                  (fun allowed => appends_walk_loop _ allowed name _) s)
      as (l & Hl & HP).
    destruct (eval _ _ s) as [s1 [u | e |]]; cbn [fst] in *;
      try (exists l; now split).
    destruct e as [v | | [k | |] | n | n]; cbn [fst] in *;
      try (exists l; now split).
    exists (l ++ [name]). cbn. rewrite Hl, app_assoc. split; [reflexivity |].
    intros n Hn. apply in_app_or in Hn. destruct Hn as [Hn | [<- | []]]; auto.
  - apply appends_seq; [apply appends_count_error | now apply appends_none].
Qed.

Lemma appends_visit_ClassDef (P : string -> Prop) (lineno : nat) (name : string)
      (decorator_list : list expr) :
  appends_undefined P (visit_ClassDef lineno name decorator_list).
Proof.
  apply appends_eval. intros names. apply appends_if; [| apply appends_done].
  apply appends_seq; [apply appends_count_error | now apply appends_none].
Qed.

Lemma visit_If (test : expr) (body orelse : list stmt) :
  visit contract (If test body orelse)
  = seq (visit_tree contract body) (visit_tree contract orelse).
Proof.
  reflexivity.
Qed.

Lemma defines_stmt_If (name : string) (test : expr) (body orelse : list stmt) :
  defines_stmt name (If test body orelse) = defines name body || defines name orelse.
Proof.
  reflexivity.
Qed.

Lemma stmt_size_in (s : stmt) (ss : list stmt) :
  In s ss -> stmt_size s <= list_sum (map stmt_size ss).
Proof.
  induction ss as [| s' ss IH]; intros Hin; [destruct Hin |].
  cbn [map]. rewrite list_sum_cons.
  destruct Hin as [-> | Hin]; [lia | specialize (IH Hin); lia].
Qed.

Lemma appends_visit_tree (tree : module) :
  (forall s, In s tree ->
             appends_undefined (fun n => defines_stmt n s = true) (visit contract s)) ->
  appends_undefined (fun n => defines n tree = true) (visit_tree contract tree).
Proof.
  induction tree as [| s rest IH]; intros Hall; cbn [visit_tree].
  - apply appends_done.
  - apply appends_seq.
    + apply appends_undefined_weaken with (fun n => defines_stmt n s = true).
      * intros n Hn. unfold defines. cbn [existsb]. now rewrite Hn.
      * apply Hall. now left.
    + apply appends_undefined_weaken with (fun n => defines n rest = true).
      * intros n Hn. unfold defines in *. cbn [existsb]. rewrite Hn.
        apply orb_true_r.
      * apply IH. intros s' Hin. apply Hall. now right.
Qed.

Lemma appends_visit_bounded (bound : nat) (s : stmt) :
  stmt_size s <= bound ->
  appends_undefined (fun n => defines_stmt n s = true) (visit contract s).
Proof.
  revert s. induction bound as [| bound IH]; intros s Hs.
  - destruct s; cbn in Hs; lia.
  - destruct s; try apply appends_done.
    + apply appends_visit_Import.
    + apply appends_visit_ImportFrom.
    + rewrite visit_If. cbn [stmt_size] in Hs.
      apply appends_seq.
      * apply appends_undefined_weaken with (fun n => defines n body = true).
        -- intros n Hn. rewrite defines_stmt_If, Hn. reflexivity.
        -- apply appends_visit_tree. intros s' Hin. apply IH.
           pose proof (stmt_size_in s' body Hin). lia.
      * apply appends_undefined_weaken with (fun n => defines n orelse = true).
        -- intros n Hn. rewrite defines_stmt_If, Hn. apply orb_true_r.
        -- apply appends_visit_tree. intros s' Hin. apply IH.
           pose proof (stmt_size_in s' orelse Hin). lia.
    + cbn [visit].
      apply appends_undefined_weaken with (eq name).
      * intros n <-. cbn [defines_stmt]. now rewrite String.eqb_refl.
      * apply appends_visit_FunctionDef.
    + cbn [visit]. apply appends_visit_ClassDef.
Qed.

(** What a pass adds to [undefined_func] are names of function definitions
    in the module. *)
Lemma appends_check (tree : module) :
  appends_undefined (fun n => defines n tree = true) (check contract tree).
Proof.
  apply appends_visit_tree. intros s _.
  now apply appends_visit_bounded with (stmt_size s).
Qed.

End StaticValidator.

Section UndefinedFunction.
Import Ast ContractUtil ContractValidator Stated Scenario.

(** C9, as stated, fails: [f] is declared and has its section in the
    contract, the module is empty and so holds no definition of [f], and the
    pass records nothing and counts nothing. *)
Lemma declared_but_absent_not_recorded :
  ~ undefined_function_recorded.
Proof.
  intros H.
  destruct (H contract_valid [] class_initial "f") as [Hin _].
  - cbn. now left.
  - reflexivity.
  - vm_compute in Hin. exact Hin.
Qed.

(** C9 (amended).  The validator records UndefinedFunction, and counts it,
    for a function definition it visits whose name is listed in [functions]
    while the contract has no section of that name.  It only ever records
    names defined in the module: a name without a definition there, declared
    or not, is not added by a pass. *)
Theorem undefined_function_is_definition_without_section :
  (forall contract functions lineno name a body decorators s,
      lookup "functions" contract = Some (CList functions) ->
      mem name functions = true ->
      lookup name contract = None ->
      visit contract (FunctionDef lineno name a body decorators) s
      = (mkState (append_undefined_func name (graph_init name (cls s)))
                 (S (error_count s)),
         Ok tt))
  /\ (forall contract tree shared name,
         defines name tree = false ->
         ~ In name (undefined_func shared) ->
         ~ In name (undefined_func (cls (fst (analysis_pass contract tree shared))))).
Proof.
  split.
  - intros contract functions lineno name a body decorators s Hl Hm Hnone.
    cbn [visit]. unfold visit_FunctionDef, get_or_empty. rewrite Hl.
    cbn [py_in eval]. rewrite Hm.
    unfold seq at 1. cbn [on_class].
    unfold try_walk, allowed_calls_of, getitem. rewrite Hnone. reflexivity.
  - intros contract tree shared name Hdef Hnot Hin.
    destruct (appends_check contract tree (new_visitor shared)) as (l & Hl & HP).
    unfold analysis_pass in Hin. rewrite Hl in Hin.
    apply in_app_or in Hin. destruct Hin as [Hin | Hin].
    + exact (Hnot Hin).
    + specialize (HP name Hin). cbn beta in HP. congruence.
Qed.

(** [h] is listed, has no section, and is defined in the module: it is
    recorded and counted.  [f] is declared and not defined there: it is not
    recorded. *)
Lemma undefined_function_is_definition_without_section_witness :
  analysis_pass contract_h_unspecified module_h class_initial
  = (mkState (mkClass [] [] [] ["h"] [] [("h", [])]) 1, Ok tt)
  /\ ~ In "f" (undefined_func
                 (cls (fst (analysis_pass contract_valid module_g class_initial)))).
Proof.
  split.
  - exact (proj1 undefined_function_is_definition_without_section
                 contract_h_unspecified ["h"] 1 "h" (mkArguments [] []) [Pass] []
                 (new_visitor class_initial) eq_refl eq_refl eq_refl).
  - apply (proj2 undefined_function_is_definition_without_section).
    + reflexivity.
    + simpl. tauto.
Defined.

End UndefinedFunction.

(* ===================================================================== *)
(** ** What a governed call guarantees                                    *)
(* ===================================================================== *)

Section Guarantees.
Import Ast ContractUtil Scenario.

Lemma bind_ok_inv {A B : Type} (m : res A) (k : A -> res B) (b : B) :
  bind m k = Ok b -> exists a, m = Ok a /\ k a = Ok b.
Proof.
  destruct m as [a | e |]; cbn [bind]; intros H; try discriminate.
  now exists a.
Qed.

Variable contract : dict.
Variable fn : pyfunc.

(** The checks pass only when each of them passed. *)
Lemma checks_ok_inv (function_caller : string) (args : list value)
      (kwargs : list (string * value)) :
  checks contract fn function_caller args kwargs = Ok tt ->
  exists calls arguments,
    function_calls fn = Ok calls
    /\ validate_calls contract fn calls = Ok tt
    /\ check_declared contract fn = Ok tt
    /\ validate_caller contract fn function_caller = Ok tt
    /\ bind_arguments fn args kwargs = Ok arguments
    /\ check_params_declared contract fn arguments = Ok tt
    /\ check_param_values contract fn arguments = Ok tt.
Proof.
  unfold checks. intros H.
  apply bind_ok_inv in H. destruct H as (calls & Hc & H).
  apply bind_ok_inv in H. destruct H as ([] & Hv & H).
  apply bind_ok_inv in H. destruct H as ([] & Hd & H).
  apply bind_ok_inv in H. destruct H as ([] & Hcl & H).
  apply bind_ok_inv in H. destruct H as (arguments & Hb & H).
  apply bind_ok_inv in H. destruct H as ([] & Hpd & H).
  exists calls, arguments. repeat split; assumption.
Qed.

Lemma check_return_ok_inv (v : value) (r : Return) :
  check_return contract fn v = Ok r ->
  r = mkReturn None v
  /\ exists spec validator,
       lookup (__name__ fn) contract = Some spec
       /\ py_getitem spec "returns" = Ok validator
       /\ py_call validator v = Ok true.
Proof.
  unfold check_return, getitem. intros H.
  destruct (lookup (__name__ fn) contract) as [spec |]; cbn [bind] in H;
    [| discriminate].
  destruct (py_getitem spec "returns") as [f | |] eqn:Hf; cbn [bind] in H;
    try discriminate.
  destruct (py_call f v) as [[|] | |] eqn:Hc; cbn [bind] in H; try discriminate.
  inversion H. split; [reflexivity |]. now exists spec, f.
Qed.

Lemma try_body_ok_inv (function_caller : string) (args : list value)
      (kwargs : list (string * value)) (r : Return) :
  try_body contract fn function_caller args kwargs = Ok r ->
  checks contract fn function_caller args kwargs = Ok tt
  /\ exists v, execute contract fn args kwargs = Ok v
               /\ check_return contract fn v = Ok r.
Proof.
  unfold try_body. intros H.
  apply bind_ok_inv in H. destruct H as ([] & Hc & H).
  apply bind_ok_inv in H. destruct H as (v & He & H).
  split; [exact Hc | now exists v].
Qed.

(** [wrapped] hands back either what the [try] produced, or the violation
    it caught with the switch not set. *)
Lemma wrapped_ok_inv (function_caller : string) (args : list value)
      (kwargs : list (string * value)) (r : Return) :
  wrapped contract fn function_caller args kwargs = Ok r ->
  try_body contract fn function_caller args kwargs = Ok r
  \/ exists v switch,
       try_body contract fn function_caller args kwargs = Raise (ContractException v)
       /\ lookup "raise_on_contract_exception" contract = Some switch
       /\ truthy switch = false
       /\ r = mkReturn (Some v) VNone.
Proof.
  unfold wrapped, handler, getitem. intros H.
  destruct (try_body contract fn function_caller args kwargs) as [r' | e |];
    [left; exact H | | discriminate].
  destruct e as [v | | e | n | n]; try discriminate.
  destruct (lookup "raise_on_contract_exception" contract) as [sw |];
    cbn [bind] in H; [| discriminate].
  destruct (truthy sw) eqn:Hsw; [discriminate |].
  inversion H. right. now exists v, sw.
Qed.

End Guarantees.

Section ReturnGuarantees.
Import Ast ContractUtil Scenario.

(** X1.  Whatever [wrapped] returns is one of two things: the value the
    [try] produced, with [ok] true and no exception, or a caught violation
    with [ok] false and [returns] None, and the latter only when the
    contract's switch is not set. *)
Theorem return_is_value_or_violation
        (contract : dict) (fn : pyfunc) (function_caller : string)
        (args : list value) (kwargs : list (string * value)) (r : Return) :
  wrapped contract fn function_caller args kwargs = Ok r ->
  (ok r = true /\ exception r = None
   /\ try_body contract fn function_caller args kwargs = Ok r)
  \/ (ok r = false /\ returns r = VNone
      /\ exists v switch,
           exception r = Some v
           /\ try_body contract fn function_caller args kwargs
              = Raise (ContractException v)
           /\ lookup "raise_on_contract_exception" contract = Some switch
           /\ truthy switch = false).
Proof.
  intros H. apply wrapped_ok_inv in H.
  destruct H as [Hbody | (v & sw & Hbody & Hl & Hsw & ->)].
  - left. destruct (try_body_ok_inv _ _ _ _ _ _ Hbody) as (_ & v & _ & Hr).
    apply check_return_ok_inv in Hr. destruct Hr as [-> _].
    repeat split. exact Hbody.
  - right. repeat split. now exists v, sw.
Qed.

Lemma return_is_value_or_violation_witness :
  ok (mkReturn (Some (CallerNotAllowed "relay" "inner")) VNone) = false
  /\ ok (mkReturn None (VBool true)) = true.
Proof.
  split.
  - destruct (return_is_value_or_violation
                contract_relay relay "<module>" [] []
                (mkReturn (Some (CallerNotAllowed "relay" "inner")) VNone) eq_refl)
      as [(H & _) | (H & _)]; [discriminate H | exact H].
  - destruct (return_is_value_or_violation
                TestCalls.contract TestCalls.called "test_callee" [] []
                (mkReturn None (VBool true)) eq_refl)
      as [(H & _) | (H & _)]; [exact H | discriminate H].
Defined.

(** X2.  A call that comes back [ok] was made to a function listed under
    ["functions"], from a caller listed in that function's
    ["allowed_callers"]. *)
Theorem success_implies_declared_and_caller_allowed
        (contract : dict) (fn : pyfunc) (function_caller : string)
        (args : list value) (kwargs : list (string * value)) (r : Return) :
  wrapped contract fn function_caller args kwargs = Ok r ->
  ok r = true ->
  (exists functions,
      lookup "functions" contract = Some functions
      /\ py_in (__name__ fn) functions = Ok true)
  /\ (exists spec callers,
         lookup (__name__ fn) contract = Some spec
         /\ py_getitem spec "allowed_callers" = Ok callers
         /\ py_in function_caller callers = Ok true).
Proof.
  intros H Hok. apply wrapped_ok_inv in H.
  destruct H as [Hbody | (v & sw & _ & _ & _ & ->)]; [| discriminate Hok].
  destruct (try_body_ok_inv _ _ _ _ _ _ Hbody) as (Hchecks & _).
  destruct (checks_ok_inv _ _ _ _ _ Hchecks)
    as (calls & arguments & _ & _ & Hd & Hc & _).
  split.
  - unfold check_declared, getitem in Hd.
    destruct (lookup "functions" contract) as [fv |]; cbn [bind] in Hd;
      [| discriminate].
    destruct (py_in (__name__ fn) fv) as [[|] | |] eqn:Hin; cbn [bind] in Hd;
      try discriminate.
    now exists fv.
  - unfold validate_caller, getitem in Hc.
    destruct (lookup (__name__ fn) contract) as [spec |]; cbn [bind] in Hc;
      [| discriminate].
    destruct (py_getitem spec "allowed_callers") as [cs | |] eqn:Hcs;
      cbn [bind] in Hc; try discriminate.
    destruct (py_in function_caller cs) as [[|] | |] eqn:Hin; cbn [bind] in Hc;
      try discriminate.
    now exists spec, cs.
Qed.

Lemma success_implies_declared_and_caller_allowed_witness :
  (exists functions,
      lookup "functions" TestCalls.contract = Some functions
      /\ py_in "called" functions = Ok true)
  /\ (exists spec callers,
         lookup "called" TestCalls.contract = Some spec
         /\ py_getitem spec "allowed_callers" = Ok callers
         /\ py_in "test_callee" callers = Ok true).
Proof.
  exact (success_implies_declared_and_caller_allowed
           TestCalls.contract TestCalls.called "test_callee" [] []
           (mkReturn None (VBool true)) eq_refl eq_refl).
Defined.

Lemma param_values_loop_ok_inv
      (params : list (string * cval)) (arguments : list (string * value)) :
  param_values_loop params arguments = Ok tt ->
  forall param validator,
    In (param, validator) params ->
    exists val, lookup param arguments = Some val /\ py_call validator val = Ok true.
Proof.
  induction params as [| [p f] rest IH]; intros H param validator Hin;
    [destruct Hin |].
  cbn [param_values_loop] in H.
  destruct (lookup p arguments) as [val |] eqn:Hp; [| discriminate].
  destruct (py_call f val) as [[|] | |] eqn:Hc; cbn [bind] in H; try discriminate.
  destruct Hin as [Heq | Hin].
  - inversion Heq; subst. now exists val.
  - now apply IH.
Qed.

Lemma params_declared_loop_ok_inv
      (contract : dict) (fn : pyfunc) (arguments : list (string * value)) :
  params_declared_loop contract fn arguments = Ok tt ->
  forall arg val,
    In (arg, val) arguments ->
    exists spec params,
      lookup (__name__ fn) contract = Some spec
      /\ py_getitem spec "params" = Ok params
      /\ py_in arg params = Ok true.
Proof.
  induction arguments as [| [a v] rest IH]; intros H arg val Hin; [destruct Hin |].
  cbn [params_declared_loop] in H. unfold getitem in H.
  destruct (lookup (__name__ fn) contract) as [spec |] eqn:Hs; cbn [bind] in H;
    [| discriminate].
  destruct (py_getitem spec "params") as [ps | |] eqn:Hps; cbn [bind] in H;
    try discriminate.
  destruct (py_in a ps) as [[|] | |] eqn:Hin'; cbn [bind] in H; try discriminate.
  destruct Hin as [Heq | Hin].
  - inversion Heq; subst. now exists spec, ps.
  - destruct (IH H arg val Hin) as (spec' & ps' & Hs' & Hps' & Hi).
    now exists spec', ps'.
Qed.

(** X3.  A call that comes back [ok] had its arguments bound to the
    signature, every name in the contract's ["params"] bound to a value its
    validator accepts, and no argument bound under a name that ["params"]
    does not declare. *)
Theorem success_implies_arguments_valid
        (contract : dict) (fn : pyfunc) (function_caller : string)
        (args : list value) (kwargs : list (string * value)) (r : Return) :
  wrapped contract fn function_caller args kwargs = Ok r ->
  ok r = true ->
  exists arguments spec params,
    bind_params (signature (fn_args fn)) args kwargs = Some arguments
    /\ lookup (__name__ fn) contract = Some spec
    /\ py_getitem spec "params" = Ok (CDict params)
    /\ (forall param validator,
           In (param, validator) params ->
           exists val, lookup param arguments = Some val
                       /\ py_call validator val = Ok true)
    /\ (forall arg val, In (arg, val) arguments -> has_key arg params = true).
Proof.
  intros H Hok. apply wrapped_ok_inv in H.
  destruct H as [Hbody | (v & sw & _ & _ & _ & ->)]; [| discriminate Hok].
  destruct (try_body_ok_inv _ _ _ _ _ _ Hbody) as (Hchecks & _).
  destruct (checks_ok_inv _ _ _ _ _ Hchecks)
    as (calls & arguments & _ & _ & _ & _ & Hb & Hpd & Hpv).
  unfold bind_arguments in Hb.
  destruct (bind_params (signature (fn_args fn)) args kwargs) as [a |] eqn:Hbp;
    [| discriminate].
  inversion Hb; subst a.
  unfold check_param_values, getitem in Hpv.
  destruct (lookup (__name__ fn) contract) as [spec |] eqn:Hs; cbn [bind] in Hpv;
    [| discriminate].
  destruct (py_getitem spec "params") as [ps | |] eqn:Hps; cbn [bind] in Hpv;
    try discriminate.
  destruct ps as [| | | | | params |]; cbn [py_items bind] in Hpv; try discriminate.
  exists arguments, spec, params. repeat split; try assumption.
  - now apply param_values_loop_ok_inv.
  - intros arg val Hin.
    assert (Hloop : params_declared_loop contract fn arguments = Ok tt).
    { unfold check_params_declared in Hpd.
      destruct (params_declared_loop contract fn arguments) as [[] | e |];
        [reflexivity | destruct e as [? | | ? | ? | ?]; discriminate | discriminate]. }
    destruct (params_declared_loop_ok_inv _ _ _ Hloop arg val Hin)
      as (spec' & ps' & Hs' & Hps' & Hi).
    rewrite Hs in Hs'. inversion Hs'; subst spec'.
    rewrite Hps in Hps'. inversion Hps'; subst ps'.
    cbn [py_in] in Hi. now inversion Hi.
Qed.

Lemma success_implies_arguments_valid_witness :
  exists arguments spec params,
    bind_params (signature (fn_args TestTimed.one_sec)) [VFloat (1 # 5)] []
    = Some arguments
    /\ lookup "one_sec" TestTimed.contract = Some spec
    /\ py_getitem spec "params" = Ok (CDict params)
    /\ (forall param validator,
           In (param, validator) params ->
           exists val, lookup param arguments = Some val
                       /\ py_call validator val = Ok true)
    /\ (forall arg val, In (arg, val) arguments -> has_key arg params = true).
Proof.
  exact (success_implies_arguments_valid
           TestTimed.contract TestTimed.one_sec "test_time" [VFloat (1 # 5)] []
           (mkReturn None (VFloat (1 # 5))) eq_refl eq_refl).
Defined.

Lemma execute_ok_inv (contract : dict) (fn : pyfunc) (args : list value)
      (kwargs : list (string * value)) (v : value) :
  execute contract fn args kwargs = Ok v ->
  exists runtime duration o,
    max_runtime contract fn = Ok runtime
    /\ fn_call fn args kwargs = Halts duration o
    /\ (Qle_bool runtime 0%Q = false -> Qle_bool duration runtime = true)
    /\ (o = Returns v
        \/ exists e, o = Raises e /\ is_Exception e = false /\ v = VNone
                     /\ Qle_bool runtime 0%Q = false).
Proof.
  unfold execute. intros H.
  apply bind_ok_inv in H. destruct H as (runtime & Hrt & H).
  destruct (fn_call fn args kwargs) as [d o |] eqn:Hcall.
  - exists runtime, d, o. split; [exact Hrt | split; [reflexivity |]].
    destruct (Qle_bool runtime 0%Q) eqn:Hle; cbn [negb] in H.
    + split; [discriminate |].
      destruct o as [r | e]; [| discriminate]. inversion H. now left.
    + unfold run_timed, is_alive in H.
      destruct (Qle_bool d runtime) eqn:Hd; cbn [negb snd] in H; [| discriminate].
      split; [reflexivity |].
      destruct o as [r | e]; cbn [timedfn] in H.
      * inversion H. now left.
      * destruct (is_Exception e) eqn:He; [discriminate |].
        inversion H. right. now exists e.
  - destruct (Qle_bool runtime 0%Q); cbn [negb] in H; discriminate.
Qed.



End ReturnGuarantees.

(* ===================================================================== *)
(** ** The call-graph check                                               *)
(* ===================================================================== *)

Section CallGraphCheck.
Import Ast ContractUtil Scenario.

Variable contract : dict.
Variable fn : pyfunc.
Variables spec : dict.
Variables allowable global : list string.
Hypothesis Hspec : lookup (__name__ fn) contract = Some (CDict spec).
Hypothesis Hallowable : lookup "allowable_calls" spec = Some (CList allowable).
Hypothesis Hglobal : lookup "global_allowed_calls" contract = Some (CList global).

Lemma validate_calls_cons (call : string) (rest : list string) :
  validate_calls contract fn (call :: rest)
  = if mem call allowable || mem call global
    then validate_calls contract fn rest
    else Raise (ContractException (CallNotAllowed (__name__ fn) call)).
Proof.
  cbn [validate_calls]. unfold has_key, getitem.
  rewrite Hspec. cbn [negb bind py_getitem]. unfold getitem.
  rewrite Hallowable. cbn [bind py_in].
  destruct (mem call allowable); cbn [orb bind]; [reflexivity |].
  rewrite Hglobal. cbn [bind py_in].
  destruct (mem call global); reflexivity.
Qed.

Lemma validate_calls_all_allowed (calls : list string) :
  (forall c, In c calls -> mem c allowable || mem c global = true) ->
  validate_calls contract fn calls = Ok tt.
Proof.
  induction calls as [| call rest IH]; intros Hall; [reflexivity |].
  rewrite validate_calls_cons, (Hall call (or_introl eq_refl)).
  apply IH. intros c Hc. apply Hall. now right.
Qed.

Lemma validate_calls_first_disallowed (before after : list string) (call : string) :
  (forall c, In c before -> mem c allowable || mem c global = true) ->
  mem call allowable || mem call global = false ->
  validate_calls contract fn (before ++ call :: after)
  = Raise (ContractException (CallNotAllowed (__name__ fn) call)).
Proof.
  induction before as [| b before IH]; intros Hall Hbad; cbn [app].
  - now rewrite validate_calls_cons, Hbad.
  - rewrite validate_calls_cons, (Hall b (or_introl eq_refl)).
    apply IH; [| exact Hbad]. intros c Hc. apply Hall. now right.
Qed.

Lemma validate_calls_some_disallowed (calls : list string) (call : string) :
  In call calls ->
  mem call allowable || mem call global = false ->
  exists c,
    In c calls
    /\ mem c allowable || mem c global = false
    /\ validate_calls contract fn calls
       = Raise (ContractException (CallNotAllowed (__name__ fn) c)).
Proof.
  induction calls as [| c rest IH]; intros Hin Hbad; [destruct Hin |].
  rewrite validate_calls_cons.
  destruct (mem c allowable || mem c global) eqn:Hc.
  - destruct Hin as [-> | Hin]; [congruence |].
    destruct (IH Hin Hbad) as (c' & Hin' & Hbad' & Hv).
    exists c'. split; [now right | now split].
  - exists c. split; [now left | now split].
Qed.

Lemma validate_calls_ok_all_allowed (calls : list string) :
  validate_calls contract fn calls = Ok tt ->
  forall c, In c calls -> mem c allowable || mem c global = true.
Proof.
  intros Hok c Hin.
  destruct (mem c allowable || mem c global) eqn:Hc; [reflexivity |].
  destruct (validate_calls_some_disallowed calls c Hin Hc) as (c' & _ & _ & Hv).
  congruence.
Qed.

End CallGraphCheck.

Section Extraction.
Import Ast ContractUtil Scenario.

(** The visitor only ever appends to [self.calls]. *)
Lemma visit_expr_extends (e : expr) (calls calls' : list string) :
  visit_expr e calls = Ok calls' -> exists l, calls' = calls ++ l.
Proof.
  revert calls calls'.
  induction e; intros calls calls' H; cbn [visit_expr] in H.
  - inversion H. exists []. now rewrite app_nil_r.
  - inversion H. exists []. now rewrite app_nil_r.
  - now apply IHe.
  - apply bind_ok_inv in H. destruct H as (c1 & H1 & H2).
    apply IHe1 in H1. apply IHe2 in H2.
    destruct H1 as (l1 & ->), H2 as (l2 & ->).
    exists (l1 ++ l2). now rewrite app_assoc.
  - apply bind_ok_inv in H. destruct H as (c1 & H1 & H2).
    apply IHe1 in H1. apply IHe2 in H2.
    destruct H1 as (l1 & ->), H2 as (l2 & ->).
    exists (l1 ++ l2). now rewrite app_assoc.
  - now apply IHe.
  - unfold visit_Call in H. destruct e; try discriminate.
    inversion H. now exists [id].
Qed.

Lemma visit_exprs_extends (es : list expr) (calls calls' : list string) :
  visit_exprs es calls = Ok calls' -> exists l, calls' = calls ++ l.
Proof.
  revert calls. induction es as [| e es IH]; intros calls H; cbn [visit_exprs] in H.
  - inversion H. exists []. now rewrite app_nil_r.
  - apply bind_ok_inv in H. destruct H as (c1 & H1 & H2).
    apply visit_expr_extends in H1. apply IH in H2.
    destruct H1 as (l1 & ->), H2 as (l2 & ->).
    exists (l1 ++ l2). now rewrite app_assoc.
Qed.

(** A decorator that is a call of a plain name is recorded. *)
Lemma visit_exprs_records_calls (es : list expr) (calls calls' : list string)
      (lineno : nat) (d : string) (xs : list expr) :
  visit_exprs es calls = Ok calls' ->
  In (Call lineno (Name d) xs) es ->
  In d calls'.
Proof.
  revert calls. induction es as [| e es IH]; intros calls H Hin; [destruct Hin |].
  cbn [visit_exprs] in H.
  apply bind_ok_inv in H. destruct H as (c1 & H1 & H2).
  destruct Hin as [-> | Hin].
  - cbn in H1. inversion H1; subst c1.
    apply visit_exprs_extends in H2. destruct H2 as (l & ->).
    apply in_or_app. left. apply in_or_app. right. now left.
  - now apply IH with c1.
Qed.

Lemma function_calls_records_decorators (fn : pyfunc) (calls : list string)
      (lineno : nat) (d : string) (xs : list expr) :
  function_calls fn = Ok calls ->
  In (Call lineno (Name d) xs) (fn_decorators fn) ->
  In d calls.
Proof.
  unfold function_calls, getsource. cbn [visit_module]. intros H Hin.
  apply bind_ok_inv in H. destruct H as (c1 & H & Heq). inversion Heq; subst c1.
  cbn [visit_stmt] in H.
  apply bind_ok_inv in H. destruct H as (c1 & _ & H).
  apply bind_ok_inv in H. destruct H as (c2 & _ & H).
  now apply visit_exprs_records_calls with (fn_decorators fn) c2 lineno xs.
Qed.

(** X5.  With the function's section and the two allow-lists in place, the
    call-graph check passes exactly when every extracted name is in
    ["allowable_calls"] or in ["global_allowed_calls"]; otherwise the
    violation names the first extracted name that is in neither. *)
Theorem call_graph_check_decided_by_first_disallowed
        (contract : dict) (fn : pyfunc) (spec : dict)
        (allowable global : list string) :
  lookup (__name__ fn) contract = Some (CDict spec) ->
  lookup "allowable_calls" spec = Some (CList allowable) ->
  lookup "global_allowed_calls" contract = Some (CList global) ->
  (forall calls,
      validate_calls contract fn calls = Ok tt
      <-> forall c, In c calls -> mem c allowable || mem c global = true)
  /\ (forall before call after,
         (forall c, In c before -> mem c allowable || mem c global = true) ->
         mem call allowable || mem call global = false ->
         validate_calls contract fn (before ++ call :: after)
         = Raise (ContractException (CallNotAllowed (__name__ fn) call))).
Proof.
  intros Hs Ha Hg. split.
  - intros calls. split.
    + now apply validate_calls_ok_all_allowed with spec.
    + now apply validate_calls_all_allowed with spec.
  - intros before call after. now apply validate_calls_first_disallowed with spec.
Qed.

Lemma call_graph_check_decided_by_first_disallowed_witness :
  validate_calls contract_nested nested (["a"] ++ "b" :: ["enforce_contract"])
  = Raise (ContractException (CallNotAllowed "nested" "b")).
Proof.
  refine (proj2 (call_graph_check_decided_by_first_disallowed
                   contract_nested nested _ ["a"] ["enforce_contract"]
                   eq_refl eq_refl eq_refl) ["a"] "b" ["enforce_contract"] _ eq_refl).
  intros c [<- | []]. reflexivity.
Defined.

(** X6.  The source that [inspect.getsource] returns includes the
    decorator lines, so the decorator's own call is among the extracted
    names: a function decorated with a call of a name that neither
    allow-list holds is refused with CallNotAllowed on every call, before
    its caller or arguments are looked at. *)
Theorem decorator_must_be_allowed
        (contract : dict) (fn : pyfunc) (spec : dict)
        (allowable global : list string)
        (lineno : nat) (d : string) (xs : list expr)
        (function_caller : string) (args : list value)
        (kwargs : list (string * value)) (calls : list string) :
  lookup (__name__ fn) contract = Some (CDict spec) ->
  lookup "allowable_calls" spec = Some (CList allowable) ->
  lookup "global_allowed_calls" contract = Some (CList global) ->
  function_calls fn = Ok calls ->
  In (Call lineno (Name d) xs) (fn_decorators fn) ->
  mem d allowable || mem d global = false ->
  In d calls
  /\ exists c,
       In c calls
       /\ try_body contract fn function_caller args kwargs
          = Raise (ContractException (CallNotAllowed (__name__ fn) c)).
Proof.
  intros Hs Ha Hg Hcalls Hin Hbad.
  pose proof (function_calls_records_decorators fn calls lineno d xs Hcalls Hin)
    as Hd.
  split; [exact Hd |].
  destruct (validate_calls_some_disallowed contract fn spec allowable global
              Hs Ha Hg calls d Hd Hbad) as (c & Hc & _ & Hv).
  exists c. split; [exact Hc |].
  unfold try_body, checks. rewrite Hcalls. cbn [bind]. now rewrite Hv.
Qed.

(** [called] of test/test_calls.py under a contract whose global list
    no longer holds ["enforce_contract"]. *)
Lemma decorator_must_be_allowed_witness :
  In "enforce_contract" ["enforce_contract"]
  /\ exists c,
       In c ["enforce_contract"]
       /\ try_body (setitem "global_allowed_calls" (CList []) TestCalls.contract)
                   TestCalls.called "test_callee" [] []
          = Raise (ContractException (CallNotAllowed "called" c)).
Proof.
  refine (decorator_must_be_allowed
            (setitem "global_allowed_calls" (CList []) TestCalls.contract)
            TestCalls.called _ [] [] 28 "enforce_contract" [Name "contract"]
            "test_callee" [] [] ["enforce_contract"]
            eq_refl eq_refl eq_refl eq_refl _ eq_refl).
  simpl. now left.
Defined.

End Extraction.

(* ===================================================================== *)
(** ** Execution in the timed worker                                      *)
(* ===================================================================== *)

Section Budget.
Import Ast ContractUtil Scenario Cases.

Lemma check_return_raises_Exception (contract : dict) (fn : pyfunc) (v : value)
      (e : exn) :
  check_return contract fn v = Raise e -> is_Exception e = true.
Proof.
  unfold check_return, getitem.
  destruct (lookup (__name__ fn) contract) as [spec |]; cbn [bind];
    [| intros H; now inversion H].
  destruct spec; cbn [py_getitem bind]; try (intros H; now inversion H).
  unfold getitem. destruct (lookup "returns" d) as [f |]; cbn [bind];
    [| intros H; now inversion H].
  destruct f; cbn [py_call bind]; try (intros H; now inversion H).
  destruct (f v); intros H; now inversion H.
Qed.

Lemma handler_raises_Exception (contract : dict) (v : violation) (e : exn) :
  handler contract v = Raise e -> is_Exception e = true.
Proof.
  unfold handler, getitem.
  destruct (lookup "raise_on_contract_exception" contract) as [sw |]; cbn [bind];
    [| intros H; now inversion H].
  destruct (truthy sw); intros H; now inversion H.
Qed.



End Budget.

(* ===================================================================== *)
(** ** Binding the arguments                                              *)
(* ===================================================================== *)

Section Binding.
Import Ast ContractUtil Scenario Cases.

Lemma bind_params_cons_inv (p : string) (has_default : bool)
      (ps : list (string * bool)) (args : list value)
      (kwargs : list (string * value)) (arguments : list (string * value)) :
  bind_params ((p, has_default) :: ps) args kwargs = Some arguments ->
  (exists a args' rest,
      args = a :: args' /\ has_key p kwargs = false
      /\ bind_params ps args' kwargs = Some rest /\ arguments = (p, a) :: rest)
  \/ (exists v rest,
         args = [] /\ lookup p kwargs = Some v
         /\ bind_params ps [] (remove_key p kwargs) = Some rest
         /\ arguments = (p, v) :: rest)
  \/ (args = [] /\ lookup p kwargs = None /\ has_default = true
      /\ bind_params ps [] kwargs = Some arguments).
Proof.
  cbn [bind_params]. destruct args as [| a args'].
  - destruct (lookup p kwargs) as [v |] eqn:Hl.
    + destruct (bind_params ps [] (remove_key p kwargs)) as [rest |] eqn:Hb;
        cbn [option_map]; intros H; inversion H.
      right; left. now exists v, rest.
    + destruct has_default; intros H; [| discriminate].
      right; right. now repeat split.
  - destruct (has_key p kwargs) eqn:Hk; [discriminate |].
    destruct (bind_params ps args' kwargs) as [rest |] eqn:Hb;
      cbn [option_map]; intros H; inversion H.
    left. now exists a, args', rest.
Qed.

Lemma bind_params_arity (params : list (string * bool)) (args : list value)
      (kwargs : list (string * value)) (arguments : list (string * value)) :
  bind_params params args kwargs = Some arguments ->
  length args <= length params.
Proof.
  revert args kwargs arguments.
  induction params as [| [p hd] ps IH]; intros args kwargs arguments H.
  - cbn in H. destruct args; [cbn; lia | discriminate].
  - apply bind_params_cons_inv in H.
    destruct H as [(a & args' & rest & -> & _ & Hb & _)
                  | [(v & rest & -> & _) | (-> & _)]]; cbn [length]; try lia.
    apply IH in Hb. lia.
Qed.

(** More positional arguments than parameters do not bind. *)
Lemma bind_params_too_many (params : list (string * bool)) (args : list value)
      (kwargs : list (string * value)) :
  length params < length args -> bind_params params args kwargs = None.
Proof.
  intros Hlen.
  destruct (bind_params params args kwargs) as [arguments |] eqn:H;
    [| reflexivity].
  apply bind_params_arity in H. lia.
Qed.

Lemma params_declared_loop_raises (contract : dict) (fn : pyfunc)
      (arguments : list (string * value)) (e : exn) :
  params_declared_loop contract fn arguments = Raise e ->
  (exists v, e = ContractException (ParamNotDeclared v)) \/ exists b, e = Builtin b.
Proof.
  assert (Hb : forall b, Raise (A := unit) (Builtin b) = Raise e ->
                         (exists v, e = ContractException (ParamNotDeclared v))
                         \/ exists b', e = Builtin b').
  { intros b H. inversion H. right. now exists b. }
  induction arguments as [| [a v] rest IH]; cbn [params_declared_loop];
    [discriminate |].
  unfold getitem.
  destruct (lookup (__name__ fn) contract) as [spec |]; cbn [bind];
    [| apply Hb].
  destruct spec; cbn [py_getitem bind]; try apply Hb.
  unfold getitem. destruct (lookup "params" d) as [ps |]; cbn [bind];
    [| apply Hb].
  destruct ps; cbn [py_in bind]; try apply Hb.
  - destruct (mem a l); [exact IH |].
    intros H; inversion H. left. now exists a.
  - destruct (has_key a d0); [exact IH |].
    intros H; inversion H. left. now exists a.
Qed.

(** X10.  Whatever goes wrong while binding the arguments or checking
    their names against ["params"] reaches the caller as a contract
    violation: [bind]'s TypeError becomes UnboundParameters, and the
    [except Exception] around the name check also wraps the engine's own
    lookup errors.  So a section without ["params"] is reported as a
    violation when an argument is bound, while with no argument bound the
    same missing key escapes from the value check as a KeyError. *)
Theorem parameter_failures_are_violations
        (contract : dict) (fn : pyfunc) (args : list value)
        (kwargs : list (string * value)) (arguments : list (string * value)) :
  (forall e, bind_arguments fn args kwargs = Raise e ->
             e = ContractException UnboundParameters)
  /\ (length (Ast.args (fn_args fn)) < length args ->
      bind_arguments fn args kwargs = Raise (ContractException UnboundParameters))
  /\ (forall e, check_params_declared contract fn arguments = Raise e ->
                exists v, e = ContractException v
                          /\ kind_of v = Kind.ParamNotDeclared)
  /\ (forall section,
         lookup (__name__ fn) contract = Some (CDict section) ->
         lookup "params" section = None ->
         (arguments <> [] ->
          check_params_declared contract fn arguments
          = Raise (ContractException (ParamCheckError (KeyError "params"))))
         /\ check_params_declared contract fn [] = Ok tt
         /\ check_param_values contract fn []
            = Raise (Builtin (KeyError "params"))).
Proof.
  repeat split.
  - unfold bind_arguments. intros e.
    destruct (bind_params (signature (fn_args fn)) args kwargs);
      intros H; now inversion H.
  - intros Hlen. unfold bind_arguments. rewrite bind_params_too_many; [reflexivity |].
    unfold signature. rewrite length_combine.
    apply Nat.min_lt_iff. now left.
  - unfold check_params_declared. intros e.
    destruct (params_declared_loop contract fn arguments) as [u | e' |] eqn:Hl;
      [discriminate | | discriminate].
    destruct (params_declared_loop_raises _ _ _ _ Hl) as [(v & ->) | (b & ->)];
      intros H; inversion H; eexists; split; reflexivity.
  - intros Hne. destruct arguments as [| [a v] rest]; [now elim Hne |].
    unfold check_params_declared. cbn [params_declared_loop]. unfold getitem.
    rewrite H. cbn [bind py_getitem]. unfold getitem. rewrite H0. reflexivity.
  - unfold check_param_values, getitem. rewrite H. cbn [bind py_getitem].
    unfold getitem. now rewrite H0.
Qed.

(** [no_params(1)] of test/test_params.py: one positional argument for a
    function without parameters. *)
Lemma parameter_failures_are_violations_witness :
  bind_arguments TestParams.no_params [VInt 1] []
  = Raise (ContractException UnboundParameters).
Proof.
  apply (proj1 (proj2 (parameter_failures_are_violations
                         (TestParams.contract "y") TestParams.no_params
                         [VInt 1] [] []))).
  simpl. lia.
Defined.

End Binding.

(* ===================================================================== *)
(** ** Delivery of violations and changes to the contract                 *)
(* ===================================================================== *)

Section Delivery.
Import Ast ContractUtil Scenario Cases.

Lemma mem_app (x : string) (l1 l2 : list string) :
  mem x (l1 ++ l2) = mem x l1 || mem x l2.
Proof. unfold mem. apply existsb_app. Qed.

Lemma has_key_setitem_present {A : Type} (k key : string) (v : A)
      (d : list (string * A)) :
  has_key key d = true -> has_key k (setitem key v d) = has_key k d.
Proof.
  unfold has_key. rewrite lookup_setitem. intros Hkey.
  destruct (String.eqb_spec k key) as [-> | _]; [| reflexivity].
  destruct (lookup key d); [reflexivity | discriminate].
Qed.

Variable contract : dict.
Variable fn : pyfunc.
Variable section : dict.
Variable callers : list string.
Variable function_caller : string.
Hypothesis Hsection : lookup (__name__ fn) contract = Some (CDict section).
Hypothesis Hcallers : lookup "allowed_callers" section = Some (CList callers).

Local Abbreviation section' :=
  (setitem "allowed_callers" (CList (callers ++ [function_caller])) section).
Local Abbreviation contract' :=
  (setitem (__name__ fn) (CDict section') contract).

Lemma append_to_allowed_callers :
  append_to contract (__name__ fn) "allowed_callers" function_caller = Ok contract'.
Proof.
  unfold append_to, getitem. rewrite Hsection. cbn [bind py_getitem].
  unfold getitem. rewrite Hcallers. reflexivity.
Qed.

(** A read of the contract followed by a use of the value that does not
    tell the two sections apart gives the same before and after. *)
Lemma getitem_then_appended {A : Type} (k : string) (f : cval -> res A) :
  f (CDict section') = f (CDict section) ->
  (x <- getitem contract' k ;; f x) = (x <- getitem contract k ;; f x).
Proof.
  intros Hf. unfold getitem. rewrite lookup_setitem.
  destruct (String.eqb_spec k (__name__ fn)) as [-> | _]; [| reflexivity].
  rewrite Hsection. cbn [bind]. exact Hf.
Qed.

Lemma py_getitem_appended (k : string) :
  String.eqb k "allowed_callers" = false ->
  py_getitem (CDict section') k = py_getitem (CDict section) k.
Proof.
  intros Hk. cbn [py_getitem]. unfold getitem. now rewrite lookup_setitem, Hk.
Qed.

Lemma py_in_appended (k : string) :
  py_in k (CDict section') = py_in k (CDict section).
Proof.
  cbn [py_in]. f_equal. apply has_key_setitem_present.
  unfold has_key. now rewrite Hcallers.
Qed.

Lemma has_key_appended (k : string) : has_key k contract' = has_key k contract.
Proof.
  apply has_key_setitem_present. unfold has_key. now rewrite Hsection.
Qed.

Lemma validate_calls_appended (calls : list string) :
  validate_calls contract' fn calls = validate_calls contract fn calls.
Proof.
  induction calls as [| call rest IH]; [reflexivity |].
  cbn [validate_calls]. rewrite IH, has_key_appended.
  destruct (negb (has_key (__name__ fn) contract)); [reflexivity |].
  f_equal.
  rewrite (getitem_then_appended (__name__ fn)).
  - destruct (getitem contract (__name__ fn)) as [spec | |]; cbn [bind];
      try reflexivity.
    destruct (py_getitem spec "allowable_calls") as [al | |]; cbn [bind];
      try reflexivity.
    destruct (py_in call al) as [[|] | |]; cbn [bind]; try reflexivity.
    apply getitem_then_appended. now rewrite py_in_appended.
  - now rewrite py_getitem_appended.
Qed.

Lemma check_declared_appended : check_declared contract' fn = check_declared contract fn.
Proof.
  unfold check_declared. apply getitem_then_appended. now rewrite py_in_appended.
Qed.

Lemma params_declared_loop_appended (arguments : list (string * value)) :
  params_declared_loop contract' fn arguments
  = params_declared_loop contract fn arguments.
Proof.
  induction arguments as [| [a v] rest IH]; [reflexivity |].
  cbn [params_declared_loop]. rewrite IH.
  apply getitem_then_appended. now rewrite py_getitem_appended.
Qed.

Lemma check_param_values_appended (arguments : list (string * value)) :
  check_param_values contract' fn arguments = check_param_values contract fn arguments.
Proof.
  unfold check_param_values. apply getitem_then_appended.
  now rewrite py_getitem_appended.
Qed.

Lemma max_runtime_appended : max_runtime contract' fn = max_runtime contract fn.
Proof.
  unfold max_runtime. apply getitem_then_appended. now rewrite py_getitem_appended.
Qed.

Lemma check_return_appended (v : value) :
  check_return contract' fn v = check_return contract fn v.
Proof.
  unfold check_return. apply getitem_then_appended. now rewrite py_getitem_appended.
Qed.

Lemma validate_caller_appended_this :
  validate_caller contract' fn function_caller = Ok tt.
Proof.
  unfold validate_caller, getitem.
  rewrite lookup_setitem, String.eqb_refl. cbn [bind py_getitem].
  unfold getitem. rewrite lookup_setitem, String.eqb_refl. cbn [bind py_in].
  rewrite mem_app. cbn [mem existsb]. rewrite String.eqb_refl.
  now rewrite orb_true_r.
Qed.

Lemma validate_caller_appended_other (other : string) :
  validate_caller contract fn other = Ok tt ->
  validate_caller contract' fn other = Ok tt.
Proof.
  unfold validate_caller, getitem.
  rewrite lookup_setitem, String.eqb_refl, Hsection. cbn [bind py_getitem].
  unfold getitem. rewrite lookup_setitem, String.eqb_refl, Hcallers.
  cbn [bind py_in]. rewrite mem_app.
  destruct (mem other callers); [reflexivity | discriminate].
Qed.

(** The checks before execution, with the caller check taken out. *)
Lemma checks_appended (args : list value) (kwargs : list (string * value)) :
  checks contract' fn function_caller args kwargs
  = (calls <- function_calls fn ;;
     validate_calls contract fn calls ;;;
     check_declared contract fn ;;;
     arguments <- bind_arguments fn args kwargs ;;
     check_params_declared contract fn arguments ;;;
     check_param_values contract fn arguments).
Proof.
  unfold checks, check_params_declared.
  rewrite check_declared_appended, validate_caller_appended_this.
  destruct (function_calls fn) as [calls | |]; cbn [bind]; try reflexivity.
  rewrite validate_calls_appended.
  destruct (validate_calls contract fn calls); cbn [bind]; try reflexivity.
  destruct (check_declared contract fn); cbn [bind]; try reflexivity.
  destruct (bind_arguments fn args kwargs) as [arguments | |]; cbn [bind];
    try reflexivity.
  now rewrite params_declared_loop_appended, check_param_values_appended.
Qed.

(** The call, with the body as it behaves at the time of the call. *)
Lemma try_body_appended (args : list value) (kwargs : list (string * value)) :
  try_body contract' fn function_caller args kwargs
  = (calls <- function_calls fn ;;
     validate_calls contract fn calls ;;;
     check_declared contract fn ;;;
     arguments <- bind_arguments fn args kwargs ;;
     check_params_declared contract fn arguments ;;;
     check_param_values contract fn arguments ;;;
     ret <- execute contract fn args kwargs ;;
     check_return contract fn ret).
Proof.
  unfold try_body. rewrite checks_appended. unfold execute.
  rewrite max_runtime_appended.
  destruct (function_calls fn) as [calls | |]; cbn [bind]; try reflexivity.
  destruct (validate_calls contract fn calls); cbn [bind]; try reflexivity.
  destruct (check_declared contract fn); cbn [bind]; try reflexivity.
  destruct (bind_arguments fn args kwargs) as [arguments | |]; cbn [bind];
    try reflexivity.
  destruct (check_params_declared contract fn arguments); cbn [bind];
    try reflexivity.
  destruct (check_param_values contract fn arguments); cbn [bind];
    try reflexivity.
  destruct (max_runtime contract fn) as [runtime | |]; cbn [bind];
    try reflexivity.
  destruct (if negb (Qle_bool runtime 0%Q) then _ else _); cbn [bind];
    try reflexivity.
  apply check_return_appended.
Qed.

End Delivery.

Section PolicyEvolution.
Import Ast ContractUtil Scenario Cases.



End PolicyEvolution.

(* ===================================================================== *)
(** ** The count and the records of a pass                                *)
(* ===================================================================== *)

Section Counting.
Import Ast ContractUtil ContractValidator Scenario Cases.

Lemma seq_assoc (a b c : step) (s : state) :
  seq a (seq b c) s = seq (seq a b) c s.
Proof.
  unfold seq. destruct (a s) as [s1 [u | e |]]; reflexivity.
Qed.

Lemma balanced_ext (a b : step) :
  (forall s, a s = b s) -> balanced b -> balanced a.
Proof. intros Hab Hb s. rewrite Hab. apply Hb. Qed.

Lemma balanced_done : balanced done.
Proof. intros s. reflexivity. Qed.

Lemma balanced_seq (a b : step) : balanced a -> balanced b -> balanced (seq a b).
Proof.
  intros Ha Hb s. unfold seq. specialize (Ha s).
  destruct (a s) as [s1 [u | e |]]; cbn [fst] in *; try exact Ha.
  specialize (Hb s1). lia.
Qed.

Lemma balanced_eval {A : Type} (r : res A) (k : A -> step) :
  (forall a, balanced (k a)) -> balanced (eval r k).
Proof.
  intros Hk s. unfold eval. destruct r as [a | e |]; [apply Hk | |]; reflexivity.
Qed.

Lemma balanced_if (b : bool) (x y : step) :
  balanced x -> balanced y -> balanced (if b then x else y).
Proof. now destruct b. Qed.

Lemma balanced_count_then_record (f : class_attrs -> class_attrs) :
  adds_one f -> balanced (seq count_error (on_class f)).
Proof. intros Hf s. cbn. rewrite Hf. lia. Qed.

Lemma balanced_record_then_count (f : class_attrs -> class_attrs) :
  adds_one f -> balanced (seq (on_class f) count_error).
Proof. intros Hf s. cbn. rewrite Hf. lia. Qed.

Lemma balanced_on_class_same (f : class_attrs -> class_attrs) :
  (forall c, total_records (f c) = total_records c) -> balanced (on_class f).
Proof. intros Hf s. cbn. now rewrite Hf. Qed.

Lemma adds_one_import (r : nat * string) : adds_one (append_import_violation r).
Proof. intros c. unfold total_records. cbn. rewrite length_app. cbn. lia. Qed.

Lemma adds_one_call (r : nat * string * string) : adds_one (append_call_violation r).
Proof. intros c. unfold total_records. cbn. rewrite length_app. cbn. lia. Qed.

Lemma adds_one_undeclared (r : nat * string) : adds_one (append_undeclared_func r).
Proof. intros c. unfold total_records. cbn. rewrite length_app. cbn. lia. Qed.

Lemma adds_one_undefined (r : string) : adds_one (append_undefined_func r).
Proof. intros c. unfold total_records. cbn. rewrite length_app. cbn. lia. Qed.

Lemma adds_one_undecorated (r : nat * string) : adds_one (append_undecorated_class r).
Proof. intros c. unfold total_records. cbn. rewrite length_app. cbn. lia. Qed.

Variable contract : dict.

Lemma balanced_visit_Import (names : list alias) :
  balanced (visit_Import contract names).
Proof.
  induction names as [| n names IH]; cbn [visit_Import].
  - apply balanced_done.
  - apply balanced_eval. intros allowed. apply balanced_if; [exact IH |].
    apply balanced_ext
      with (seq (seq count_error
                     (on_class (append_import_violation
                                  (alias_lineno n, alias_name n))))
                (visit_Import contract names)).
    + intros s. apply seq_assoc.
    + apply balanced_seq; [| exact IH].
      apply balanced_count_then_record, adds_one_import.
Qed.

Lemma balanced_visit_ImportFrom (lineno : nat) (module : string) :
  balanced (visit_ImportFrom contract lineno module).
Proof.
  apply balanced_eval. intros allowed. apply balanced_if; [apply balanced_done |].
  apply balanced_count_then_record, adds_one_import.
Qed.

Lemma balanced_check_node (allowed : list string) (name : string) (cn : node) :
  balanced (check_node contract allowed name cn).
Proof.
  destruct cn as [e | s | a | a]; cbn [check_node]; try apply balanced_done.
  - destruct e; try apply balanced_done.
    apply balanced_eval. intros called. apply balanced_if.
    + apply balanced_record_then_count, adds_one_call.
    + now apply balanced_on_class_same.
  - destruct s; try apply balanced_done.
    + apply balanced_visit_Import.
    + apply balanced_visit_ImportFrom.
Qed.

Lemma balanced_walk_loop (allowed : list string) (name : string)
      (nodes : list node) :
  balanced (walk_loop contract allowed name nodes).
Proof.
  induction nodes as [| cn nodes IH]; cbn [walk_loop].
  - apply balanced_done.
  - apply balanced_seq; [apply balanced_check_node | exact IH].
Qed.

Lemma balanced_visit_FunctionDef (node : stmt) (lineno : nat) (name : string) :
  balanced (visit_FunctionDef contract node lineno name).
Proof.
  apply balanced_eval. intros declared. apply balanced_if.
  - apply balanced_seq; [now apply balanced_on_class_same |].
    intros s. unfold try_walk.
    pose proof (balanced_eval (allowed_calls_of contract name)
                  (fun allowed => walk_loop contract allowed name (walk (NStmt node)))
                  (fun allowed => balanced_walk_loop allowed name _) s) as Hw.
    destruct (eval _ _ s) as [s1 [u | e |]]; cbn [fst] in *; try exact Hw.
    destruct e as [v | | [k | |] | n | n]; cbn [fst] in *; try exact Hw.
    pose proof (balanced_count_then_record _ (adds_one_undefined name) s1) as Hu.
    lia.
  - apply balanced_count_then_record, adds_one_undeclared.
Qed.

Lemma balanced_visit_ClassDef (lineno : nat) (name : string)
      (decorator_list : list expr) :
  balanced (visit_ClassDef lineno name decorator_list).
Proof.
  apply balanced_eval. intros names. apply balanced_if; [| apply balanced_done].
  apply balanced_count_then_record, adds_one_undecorated.
Qed.

Lemma balanced_visit_tree (tree : module) :
  (forall s, In s tree -> balanced (visit contract s)) ->
  balanced (visit_tree contract tree).
Proof.
  induction tree as [| s rest IH]; intros Hall; cbn [visit_tree].
  - apply balanced_done.
  - apply balanced_seq; [apply Hall; now left |].
    apply IH. intros s' Hin. apply Hall. now right.
Qed.

Lemma balanced_visit_bounded (bound : nat) (s : stmt) :
  stmt_size s <= bound -> balanced (visit contract s).
Proof.
  revert s. induction bound as [| bound IH]; intros s Hs.
  - destruct s; cbn in Hs; lia.
  - destruct s; try apply balanced_done.
    + apply balanced_visit_Import.
    + apply balanced_visit_ImportFrom.
    + rewrite visit_If. cbn [stmt_size] in Hs.
      apply balanced_seq; apply balanced_visit_tree; intros s' Hin; apply IH.
      * pose proof (stmt_size_in s' body Hin). lia.
      * pose proof (stmt_size_in s' orelse Hin). lia.
    + cbn [visit]. apply balanced_visit_FunctionDef.
    + cbn [visit]. apply balanced_visit_ClassDef.
Qed.

Lemma balanced_check (tree : module) : balanced (check contract tree).
Proof.
  apply balanced_visit_tree. intros s _.
  now apply balanced_visit_bounded with (stmt_size s).
Qed.

End Counting.

Section CountingResult.
Import Ast ContractUtil ContractValidator Scenario Cases.

(** X13.  Within one pass the count and the records move together: when
    the pass ends, or stops on an error, its [error_count] is the number of
    records it appended to the five lists.  On lists that were empty at the
    start, the printed total is the number of records printed. *)
Theorem error_count_counts_records
        (contract : dict) (tree : module) (shared : class_attrs) :
  let report := fst (analysis_pass contract tree shared) in
  total_records (cls report) = total_records shared + error_count report
  /\ (total_records shared = 0 -> error_count report = total_records (cls report)).
Proof.
  cbv zeta. unfold analysis_pass.
  pose proof (balanced_check contract tree (new_visitor shared)) as H.
  cbn [new_visitor cls error_count] in H. split; [lia |].
  intros H0. lia.
Qed.

(** The pass over [nested]: one call violation, counted once. *)
Lemma error_count_counts_records_witness :
  error_count (fst (analysis_pass contract_nested module_nested class_initial))
  = total_records
      (cls (fst (analysis_pass contract_nested module_nested class_initial))).
Proof.
  apply (proj2 (error_count_counts_records contract_nested module_nested
                  class_initial)).
  reflexivity.
Defined.

Lemma decorator_names_plain (ds : list expr) :
  forallb is_plain_call ds = true ->
  exists names,
    decorator_names ds = Ok names
    /\ mem "enforce_contract" names = existsb is_enforce_contract ds.
Proof.
  induction ds as [| d ds IH]; intros H.
  - now exists [].
  - cbn [forallb] in H. apply andb_true_iff in H. destruct H as [Hd Hds].
    destruct (IH Hds) as (names & Hn & Hm).
    destruct d as [| | | | | | lineno f xs]; try discriminate Hd.
    destruct f as [id | | | | | |]; try discriminate Hd.
    exists (id :: names). cbn [decorator_names]. rewrite Hn. cbn [bind]. split;
      [reflexivity |].
    cbn [mem existsb is_enforce_contract] in *. now rewrite <- Hm.
Qed.

Lemma decorator_names_not_plain (ds : list expr) :
  forallb is_plain_call ds = false ->
  decorator_names ds = Raise (Builtin AttributeError).
Proof.
  induction ds as [| d ds IH]; intros H; [discriminate |].
  cbn [forallb] in H.
  destruct d as [| | | | | | lineno f xs]; try reflexivity.
  destruct f as [id | | | | | |]; try reflexivity.
  cbn [is_plain_call andb] in H. cbn [decorator_names]. now rewrite (IH H).
Qed.

(** X14.  [visit_ClassDef] reads [x.func.id] of every decorator.  When all
    decorators are calls of plain names, the class is recorded as
    undecorated, and counted, exactly when none of them calls
    [enforce_contract].  A decorator of any other form, such as a bare
    name, stops the pass with an AttributeError: nothing is recorded for
    the class and the statements after it are not visited. *)
Theorem class_decorators_decide
        (contract : dict) (lineno : nat) (name : string) (bases : list expr)
        (body : list stmt) (decorator_list : list expr) (rest : module)
        (s : state) :
  (forallb is_plain_call decorator_list = true ->
   visit contract (ClassDef lineno name bases body decorator_list) s
   = if existsb is_enforce_contract decorator_list
     then (s, Ok tt)
     else (mkState (append_undecorated_class (lineno, name) (cls s))
                   (S (error_count s)),
           Ok tt))
  /\ (forallb is_plain_call decorator_list = false ->
      visit_tree contract (ClassDef lineno name bases body decorator_list :: rest) s
      = (s, Raise (Builtin AttributeError))).
Proof.
  split; intros H.
  - cbn [visit]. unfold visit_ClassDef.
    destruct (decorator_names_plain decorator_list H) as (names & Hn & Hm).
    rewrite Hn. cbn [eval]. rewrite Hm.
    now destruct (existsb is_enforce_contract decorator_list).
  - cbn [visit_tree visit]. unfold seq, visit_ClassDef.
    now rewrite (decorator_names_not_plain decorator_list H).
Qed.

(** [class A: pass] is recorded; [@dataclass class B: pass] stops the pass
    before [def g(): pass] is looked at. *)
Lemma class_decorators_decide_witness :
  visit contract_valid (ClassDef 1 "A" [] [Pass] []) (new_visitor class_initial)
  = (mkState (mkClass [] [] [] [] [(1, "A")] []) 1, Ok tt)
  /\ visit_tree contract_valid
                (ClassDef 2 "B" [] [Pass] [Name "dataclass"] :: module_g)
                (new_visitor class_initial)
     = (new_visitor class_initial, Raise (Builtin AttributeError)).
Proof.
  split.
  - exact (proj1 (class_decorators_decide contract_valid 1 "A" [] [Pass] [] []
                    (new_visitor class_initial)) eq_refl).
  - exact (proj2 (class_decorators_decide contract_valid 2 "B" [] [Pass]
                    [Name "dataclass"] module_g (new_visitor class_initial))
                 eq_refl).
Defined.

Lemma call_violation_visit_Import (contract : dict) (names : list alias) (s : state) :
  call_violation (cls (fst (visit_Import contract names s)))
  = call_violation (cls s).
Proof.
  revert s. induction names as [| n names IH]; intros s; [reflexivity |].
  cbn [visit_Import]. unfold eval.
  destruct (imports <- getitem contract "allowable_imports" ;;
            py_in (alias_name n) imports) as [[|] | e |]; try reflexivity.
  - apply IH.
  - unfold seq. cbn [count_error on_class]. now rewrite IH.
Qed.

Lemma call_violation_visit_ImportFrom (contract : dict) (lineno : nat)
      (module : string) (s : state) :
  call_violation (cls (fst (visit_ImportFrom contract lineno module s)))
  = call_violation (cls s).
Proof.
  unfold visit_ImportFrom, eval.
  destruct (imports <- getitem contract "allowable_imports" ;;
            py_in module imports) as [[|] | e |]; reflexivity.
Qed.

Lemma call_violation_check_node (contract : dict) (allowed : list string)
      (name : string) (cn : node) (s : state) :
  snd (check_node contract allowed name cn s) = Ok tt ->
  call_violation (cls (fst (check_node contract allowed name cn s)))
  = call_violation (cls s) ++ disallowed_calls allowed name [cn].
Proof.
  unfold disallowed_calls. cbn [flat_map]. rewrite app_nil_r.
  destruct cn as [e | st | a | a]; cbn [check_node];
    try (intros _; now rewrite app_nil_r).
  - destruct e; try (intros _; now rewrite app_nil_r).
    unfold eval. destruct (called_name e) as [called | e' |]; try discriminate.
    intros _. destruct (mem called allowed); cbn [negb].
    + now rewrite app_nil_r.
    + reflexivity.
  - destruct st; try (intros _; now rewrite app_nil_r); intros _;
      rewrite app_nil_r.
    + apply call_violation_visit_Import.
    + apply call_violation_visit_ImportFrom.
Qed.

Lemma call_violation_walk_loop (contract : dict) (allowed : list string)
      (name : string) (nodes : list node) (s : state) :
  snd (walk_loop contract allowed name nodes s) = Ok tt ->
  call_violation (cls (fst (walk_loop contract allowed name nodes s)))
  = call_violation (cls s) ++ disallowed_calls allowed name nodes.
Proof.
  revert s. induction nodes as [| cn nodes IH]; intros s; cbn [walk_loop].
  - intros _. unfold disallowed_calls. cbn. now rewrite app_nil_r.
  - unfold seq.
    pose proof (call_violation_check_node contract allowed name cn s) as Hcn.
    destruct (check_node contract allowed name cn s) as [s1 [[] | e |]];
      cbn [fst snd] in *; try discriminate.
    intros H. rewrite (IH s1 H), (Hcn eq_refl), <- app_assoc. f_equal.
    unfold disallowed_calls. cbn [flat_map]. now rewrite app_nil_r.
Qed.

Lemma no_key_error_seq (a b : step) :
  no_key_error a -> no_key_error b -> no_key_error (seq a b).
Proof.
  intros Ha Hb s k. unfold seq. specialize (Ha s k).
  destruct (a s) as [s1 [u | e |]]; cbn [snd] in *; try exact Ha.
  apply Hb.
Qed.

Lemma no_key_error_total (st : step) :
  (forall s, snd (st s) = Ok tt) -> no_key_error st.
Proof. intros H s k. rewrite H. discriminate. Qed.

Lemma no_key_error_imports (contract : dict) (x : string) (k : string -> bool -> step) :
  has_key "allowable_imports" contract = true ->
  (forall b, no_key_error (k x b)) ->
  no_key_error (eval (imports <- getitem contract "allowable_imports" ;;
                      py_in x imports) (k x)).
Proof.
  unfold has_key, getitem, eval. intros Hk Hb s key.
  destruct (lookup "allowable_imports" contract) as [imports |]; [| discriminate].
  cbn [bind]. destruct imports; cbn [py_in snd]; try discriminate; apply Hb.
Qed.

Lemma no_key_error_visit_Import (contract : dict) (names : list alias) :
  has_key "allowable_imports" contract = true ->
  no_key_error (visit_Import contract names).
Proof.
  intros Hk. induction names as [| n names IH]; cbn [visit_Import].
  - now apply no_key_error_total.
  - apply (no_key_error_imports contract (alias_name n)
             (fun _ allowed =>
                if allowed then visit_Import contract names
                else seq count_error
                       (seq (on_class (append_import_violation
                                         (alias_lineno n, alias_name n)))
                            (visit_Import contract names))) Hk).
    intros [|]; [exact IH |].
    apply no_key_error_seq; [now apply no_key_error_total |].
    apply no_key_error_seq; [now apply no_key_error_total | exact IH].
Qed.

Lemma no_key_error_visit_ImportFrom (contract : dict) (lineno : nat)
      (module : string) :
  has_key "allowable_imports" contract = true ->
  no_key_error (visit_ImportFrom contract lineno module).
Proof.
  intros Hk.
  apply (no_key_error_imports contract module
           (fun _ allowed =>
              if allowed then done
              else seq count_error
                     (on_class (append_import_violation (lineno, module)))) Hk).
  intros [|]; now apply no_key_error_total.
Qed.

Lemma no_key_error_check_node (contract : dict) (allowed : list string)
      (name : string) (cn : node) :
  has_key "allowable_imports" contract = true ->
  no_key_error (check_node contract allowed name cn).
Proof.
  intros Hk.
  destruct cn as [e | st | a | a]; cbn [check_node];
    try now apply no_key_error_total.
  - destruct e; try now apply no_key_error_total.
    intros s k. unfold eval.
    destruct (called_name e) as [called | e' |] eqn:Hc; cbn [snd].
    + destruct (negb (mem called allowed)); discriminate.
    + destruct e as [| | [] | [] | | |]; cbn in Hc; inversion Hc; discriminate.
    + discriminate.
  - destruct st; try now apply no_key_error_total.
    + now apply no_key_error_visit_Import.
    + now apply no_key_error_visit_ImportFrom.
Qed.

Lemma no_key_error_walk_loop (contract : dict) (allowed : list string)
      (name : string) (nodes : list node) :
  has_key "allowable_imports" contract = true ->
  no_key_error (walk_loop contract allowed name nodes).
Proof.
  intros Hk. induction nodes as [| cn nodes IH]; cbn [walk_loop].
  - now apply no_key_error_total.
  - apply no_key_error_seq; [now apply no_key_error_check_node | exact IH].
Qed.

(** A definition whose name is listed: the visit is the [try] block, run
    once the name has its entry in [call_graph]. *)
Lemma visit_declared_FunctionDef
      (contract : dict) (functions : list string)
      (lineno : nat) (name : string) (a : arguments) (body : list stmt)
      (decorator_list : list expr) (s : state) :
  lookup "functions" contract = Some (CList functions) ->
  mem name functions = true ->
  visit contract (FunctionDef lineno name a body decorator_list) s
  = try_walk contract (FunctionDef lineno name a body decorator_list) name
             (mkState (graph_init name (cls s)) (error_count s)).
Proof.
  intros Hl Hm. cbn [visit]. unfold visit_FunctionDef, get_or_empty.
  rewrite Hl. cbn [py_in eval]. now rewrite Hm.
Qed.

Lemma try_walk_call_violation
      (contract : dict) (allowed : list string) (node : stmt) (name : string)
      (s : state) :
  allowed_calls_of contract name = Ok allowed ->
  has_key "allowable_imports" contract = true ->
  snd (try_walk contract node name s) = Ok tt ->
  call_violation (cls (fst (try_walk contract node name s)))
  = call_violation (cls s) ++ disallowed_calls allowed name (walk (NStmt node)).
Proof.
  intros Ha Hk. unfold try_walk, eval. rewrite Ha.
  pose proof (call_violation_walk_loop contract allowed name
                (walk (NStmt node)) s) as Hw.
  pose proof (no_key_error_walk_loop contract allowed name
                (walk (NStmt node)) Hk s) as Hn.
  destruct (walk_loop contract allowed name (walk (NStmt node)) s)
    as [s1 [[] | e |]]; cbn [fst snd] in *.
  - intros _. exact (Hw eq_refl).
  - destruct e as [v | | [k | |] | n | n]; cbn [snd]; try discriminate.
    now elim (Hn k).
  - discriminate.
Qed.

(** X15.  For a function listed in ["functions"] whose allowed names the
    contract yields, under a contract that has ["allowable_imports"], a
    visit that runs to its end appends to [call_violation] one record for
    every call in the function's tree, decorators included, whose resolved
    name is not allowed, in the order of [ast.walk], and no other record. *)
Theorem call_violations_are_the_disallowed_calls
        (contract : dict) (functions allowed : list string)
        (lineno : nat) (name : string) (a : arguments) (body : list stmt)
        (decorator_list : list expr) (s : state) :
  lookup "functions" contract = Some (CList functions) ->
  mem name functions = true ->
  allowed_calls_of contract name = Ok allowed ->
  has_key "allowable_imports" contract = true ->
  let node := FunctionDef lineno name a body decorator_list in
  snd (visit contract node s) = Ok tt ->
  call_violation (cls (fst (visit contract node s)))
  = call_violation (cls s) ++ disallowed_calls allowed name (walk (NStmt node)).
Proof.
  intros Hl Hm Ha Hk node. subst node.
  rewrite (visit_declared_FunctionDef contract functions lineno name a body
             decorator_list s Hl Hm).
  intros Hend.
  exact (try_walk_call_violation contract allowed _ name _ Ha Hk Hend).
Qed.

(** The pass over [nested]: the call of [b] inside [a(b())] is the one
    record. *)
Lemma call_violations_are_the_disallowed_calls_witness :
  call_violation
    (cls (fst (visit contract_nested
                     (FunctionDef 2 "nested" (mkArguments [] []) (fn_body nested)
                                  (fn_decorators nested))
                     (new_visitor class_initial))))
  = [] ++ [(3, "b", "nested")].
Proof.
  exact (call_violations_are_the_disallowed_calls
           contract_nested ["nested"] ["enforce_contract"; "a"] 2 "nested"
           (mkArguments [] []) (fn_body nested) (fn_decorators nested)
           (new_visitor class_initial) eq_refl eq_refl eq_refl eq_refl eq_refl).
Defined.

End CountingResult.

(* ===================================================================== *)
(** ** What a validated contract gives the engine                         *)
(* ===================================================================== *)

Section ValidatedContract.
Import Ast ContractUtil ContractValidator Schema Stated Scenario Cases.

Lemma mem_In (x : string) (l : list string) : In x l -> mem x l = true.
Proof.
  intros H. unfold mem. apply existsb_exists. exists x.
  split; [exact H | apply String.eqb_refl].
Qed.

Lemma entry_ok (d : dict) (k : string) (t : pytype) :
  ~ entry_defect d k t ->
  exists c, lookup k d = Some c /\ isinstance c t = true.
Proof.
  unfold entry_defect. intros H.
  destruct (lookup k d) as [c |]; [| now elim H].
  exists c. split; [reflexivity |].
  destruct (isinstance c t); [reflexivity | now elim H].
Qed.

Lemma check_function_keys_ok_dict (section : cval) (k : string) (t : pytype)
      (keys : list (string * pytype)) :
  check_function_keys section ((k, t) :: keys) = Ok tt ->
  exists d, section = CDict d.
Proof.
  cbn [check_function_keys].
  destruct section; cbn [py_in bind]; try discriminate.
  - destruct (mem k l); cbn [negb py_getitem bind]; discriminate.
  - intros _. now exists d.
Qed.

Lemma check_functions_ok (contract : dict) (k : string) (t : pytype)
      (keys : list (string * pytype)) (functions : list string) :
  check_functions contract ((k, t) :: keys) functions = Ok tt ->
  forall f, In f functions ->
            exists d, lookup f contract = Some (CDict d)
                      /\ forall k' t', In (k', t') ((k, t) :: keys) ->
                                       ~ entry_defect d k' t'.
Proof.
  induction functions as [| g functions IH]; intros H f Hin; [destruct Hin |].
  cbn [check_functions] in H. unfold has_key, getitem in H.
  destruct (lookup g contract) as [section |] eqn:Hg; cbn [negb bind] in H;
    [| discriminate].
  destruct (check_function_keys section ((k, t) :: keys)) as [[] | e |] eqn:Hk;
    cbn [bind] in H; try discriminate.
  destruct Hin as [<- | Hin]; [| now apply IH].
  destruct (check_function_keys_ok_dict _ _ _ _ Hk) as (d & ->).
  exists d. split; [exact Hg |].
  destruct (check_function_keys_spec d ((k, t) :: keys)) as [[_ Hall] | [Hbad _]];
    [exact Hall | congruence].
Qed.



End ValidatedContract.

(* ===================================================================== *)
(** ** The static pass against the run-time call-graph check              *)
(* ===================================================================== *)

Section WalkReaches.
Import Ast ContractUtil ContractValidator Scenario Cases.

Lemma walk_queue_todo (steps : nat) (todo : list node) (m : node) :
  list_sum (map node_size todo) <= steps ->
  In m todo -> In m (walk_queue steps todo).
Proof.
  revert todo. induction steps as [| steps IH]; intros todo Hle Hin.
  - destruct todo as [| n rest]; [destruct Hin |].
    cbn [map] in Hle. rewrite list_sum_cons, (node_size_children n) in Hle. lia.
  - destruct todo as [| n rest]; [destruct Hin |].
    cbn [walk_queue]. destruct Hin as [-> | Hin]; [now left | right].
    apply IH; [| apply in_or_app; now left].
    cbn [map] in Hle. rewrite list_sum_cons, (node_size_children n) in Hle.
    rewrite map_app, list_sum_app. lia.
Qed.

Lemma walk_queue_children (steps : nat) (todo : list node) (m c : node) :
  list_sum (map node_size todo) <= steps ->
  In m (walk_queue steps todo) ->
  In c (iter_child_nodes m) ->
  In c (walk_queue steps todo).
Proof.
  revert todo. induction steps as [| steps IH]; intros todo Hle Hm Hc.
  - destruct Hm.
  - destruct todo as [| n rest]; [destruct Hm |].
    cbn [walk_queue] in *.
    assert (Hle' : list_sum (map node_size (rest ++ iter_child_nodes n)) <= steps).
    { cbn [map] in Hle. rewrite list_sum_cons, (node_size_children n) in Hle.
      rewrite map_app, list_sum_app. lia. }
    right. destruct Hm as [<- | Hm].
    + apply walk_queue_todo; [exact Hle' | apply in_or_app; now right].
    + now apply IH.
Qed.

(** [ast.walk] yields the node it is given and, with a node, its
    children. *)
Lemma walk_root (n : node) : In n (walk n).
Proof.
  unfold walk. apply walk_queue_todo; [| now left].
  cbn [map]. rewrite list_sum_cons. cbn. lia.
Qed.

Lemma walk_child (n m c : node) :
  In m (walk n) -> In c (iter_child_nodes m) -> In c (walk n).
Proof.
  unfold walk. apply walk_queue_children.
  cbn [map]. rewrite list_sum_cons. cbn. lia.
Qed.

Variable root : node.

(** Every name in [calls'] was in [calls] already or is the name of a call
    that [ast.walk] yields from [root]. *)
Local Abbreviation comes_from calls calls' :=
  (forall c, In c calls' ->
             In c calls \/ exists lineno xs,
                             In (NExpr (Call lineno (Name c) xs)) (walk root))
  (only parsing).

Lemma visit_expr_in_walk (e : expr) (calls calls' : list string) :
  In (NExpr e) (walk root) ->
  visit_expr e calls = Ok calls' ->
  comes_from calls calls'.
Proof.
  revert calls calls'.
  induction e; intros calls calls' Hin H c Hc; cbn [visit_expr] in H.
  - inversion H; subst. now left.
  - inversion H; subst. now left.
  - apply (IHe calls calls'); try assumption.
    apply (walk_child root _ _ Hin). now left.
  - apply bind_ok_inv in H. destruct H as (c1 & H1 & H2).
    destruct (IHe2 c1 calls') with (c := c) as [Hc1 | Hf]; try assumption.
    + apply (walk_child root _ _ Hin). right; now left.
    + apply (IHe1 calls c1); try assumption.
      apply (walk_child root _ _ Hin). now left.
    + now right.
  - apply bind_ok_inv in H. destruct H as (c1 & H1 & H2).
    destruct (IHe2 c1 calls') with (c := c) as [Hc1 | Hf]; try assumption.
    + apply (walk_child root _ _ Hin). right; now left.
    + apply (IHe1 calls c1); try assumption.
      apply (walk_child root _ _ Hin). now left.
    + now right.
  - apply (IHe calls calls'); try assumption.
    apply (walk_child root _ _ Hin). now left.
  - unfold visit_Call in H. destruct e; try discriminate.
    inversion H; subst. apply in_app_or in Hc.
    destruct Hc as [Hc | [<- | []]]; [now left | right].
    do 2 eexists. exact Hin.
Qed.

Lemma visit_exprs_in_walk (es : list expr) (calls calls' : list string) :
  (forall e, In e es -> In (NExpr e) (walk root)) ->
  visit_exprs es calls = Ok calls' ->
  comes_from calls calls'.
Proof.
  revert calls. induction es as [| e es IH]; intros calls Hall H c Hc;
    cbn [visit_exprs] in H.
  - inversion H; subst. now left.
  - apply bind_ok_inv in H. destruct H as (c1 & H1 & H2).
    destruct (IH c1) with (c := c) as [Hc1 | Hf]; try assumption.
    + intros e' He'. apply Hall. now right.
    + apply (visit_expr_in_walk e calls c1); try assumption.
      apply Hall. now left.
    + now right.
Qed.

Lemma visit_module_in_walk (m : module) (calls calls' : list string) :
  (forall s, In s m ->
             forall calls calls', visit_stmt s calls = Ok calls' ->
                                  comes_from calls calls') ->
  visit_module m calls = Ok calls' ->
  comes_from calls calls'.
Proof.
  revert calls. induction m as [| s m IH]; intros calls Hall H c Hc;
    cbn [visit_module] in H.
  - inversion H; subst. now left.
  - apply bind_ok_inv in H. destruct H as (c1 & H1 & H2).
    destruct (IH c1) with (c := c) as [Hc1 | Hf]; try assumption.
    + intros s' Hs'. apply Hall. now right.
    + apply (Hall s (or_introl eq_refl) calls c1); assumption.
    + now right.
Qed.

End WalkReaches.

Section StaticAgainstRuntime.
Import Ast ContractUtil ContractValidator Scenario Cases.

Variable root : node.

Local Abbreviation comes_from calls calls' :=
  (forall c, In c calls' ->
             In c calls \/ exists lineno xs,
                             In (NExpr (Call lineno (Name c) xs)) (walk root))
  (only parsing).

Lemma comes_from_trans (a b c : list string) :
  comes_from a b -> comes_from b c -> comes_from a c.
Proof.
  intros Hab Hbc x Hx. destruct (Hbc x Hx) as [Hb | Hf]; [now apply Hab | now right].
Qed.

Lemma in_children (m c : node) :
  In m (walk root) -> In c (iter_child_nodes m) -> In c (walk root).
Proof. apply walk_child. Qed.

Lemma visit_stmt_in_walk_bounded (bound : nat) (s : stmt)
      (calls calls' : list string) :
  stmt_size s <= bound ->
  In (NStmt s) (walk root) ->
  visit_stmt s calls = Ok calls' ->
  comes_from calls calls'.
Proof.
  revert s calls calls'.
  induction bound as [| bound IH]; intros s calls calls' Hs Hin H.
  - destruct s; cbn in Hs; lia.
  - assert (Hmod : forall m calls calls',
               list_sum (map stmt_size m) <= bound ->
               (forall s', In s' m -> In (NStmt s') (walk root)) ->
               visit_module m calls = Ok calls' -> comes_from calls calls').
    { intros m cs cs' Hm Hall. apply visit_module_in_walk.
      intros s' Hs' cs1 cs2. apply IH; [| now apply Hall].
      pose proof (stmt_size_in s' m Hs'). lia. }
    destruct s as [v | tg v | v | | ex | names | l mo | test body orelse
                  | lineno name a body decorator_list
                  | lineno name bases body decorator_list];
      cbn [stmt_size] in Hs.
    + apply (visit_expr_in_walk root v calls calls'); [| exact H].
      apply (in_children _ _ Hin). now left.
    + cbn [visit_stmt] in H.
      apply bind_ok_inv in H. destruct H as (c1 & H1 & H2).
      apply comes_from_trans with c1.
      * apply (visit_expr_in_walk root tg calls c1); [| exact H1].
        apply (in_children _ _ Hin). now left.
      * apply (visit_expr_in_walk root v c1 calls'); [| exact H2].
        apply (in_children _ _ Hin). right; now left.
    + apply (visit_exprs_in_walk root (option_list v) calls calls');
        [| exact H].
      intros e He. apply (in_children _ _ Hin). cbn. now apply in_map.
    + inversion H; subst. intros c Hc. now left.
    + apply (visit_exprs_in_walk root (option_list ex) calls calls');
        [| exact H].
      intros e He. apply (in_children _ _ Hin). cbn. now apply in_map.
    + inversion H; subst. intros c Hc. now left.
    + inversion H; subst. intros c Hc. now left.
    + change (visit_stmt (If test body orelse) calls)
        with (calls1 <- visit_expr test calls ;;
              calls2 <- visit_module body calls1 ;;
              visit_module orelse calls2) in H.
      apply bind_ok_inv in H. destruct H as (c1 & H1 & H).
      apply bind_ok_inv in H. destruct H as (c2 & H2 & H3).
      apply comes_from_trans with c1; [| apply comes_from_trans with c2].
      * apply (visit_expr_in_walk root test calls c1); [| exact H1].
        apply (in_children _ _ Hin). now left.
      * apply (Hmod body c1 c2); [lia | | exact H2].
        intros s' Hs'. apply (in_children _ _ Hin). cbn. right.
        apply in_or_app. left. now apply in_map.
      * apply (Hmod orelse c2 calls'); [lia | | exact H3].
        intros s' Hs'. apply (in_children _ _ Hin). cbn. right.
        apply in_or_app. right. now apply in_map.
    + change (visit_stmt (FunctionDef lineno name a body decorator_list) calls)
        with (calls1 <- visit_exprs (defaults a) calls ;;
              calls2 <- visit_module body calls1 ;;
              visit_exprs decorator_list calls2) in H.
      apply bind_ok_inv in H. destruct H as (c1 & H1 & H).
      apply bind_ok_inv in H. destruct H as (c2 & H2 & H3).
      apply comes_from_trans with c1; [| apply comes_from_trans with c2].
      * apply (visit_exprs_in_walk root (defaults a) calls c1); [| exact H1].
        intros e He. apply (in_children (NArguments a)).
        -- apply (in_children _ _ Hin). now left.
        -- cbn. now apply in_map.
      * apply (Hmod body c1 c2); [lia | | exact H2].
        intros s' Hs'. apply (in_children _ _ Hin). cbn. right.
        apply in_or_app. left. now apply in_map.
      * apply (visit_exprs_in_walk root decorator_list c2 calls'); [| exact H3].
        intros e He. apply (in_children _ _ Hin). cbn. right.
        apply in_or_app. right. now apply in_map.
    + change (visit_stmt (ClassDef lineno name bases body decorator_list) calls)
        with (calls1 <- visit_exprs bases calls ;;
              calls2 <- visit_module body calls1 ;;
              visit_exprs decorator_list calls2) in H.
      apply bind_ok_inv in H. destruct H as (c1 & H1 & H).
      apply bind_ok_inv in H. destruct H as (c2 & H2 & H3).
      apply comes_from_trans with c1; [| apply comes_from_trans with c2].
      * apply (visit_exprs_in_walk root bases calls c1); [| exact H1].
        intros e He. apply (in_children _ _ Hin). cbn.
        apply in_or_app. left. now apply in_map.
      * apply (Hmod body c1 c2); [lia | | exact H2].
        intros s' Hs'. apply (in_children _ _ Hin). cbn.
        apply in_or_app. right. apply in_or_app. left. now apply in_map.
      * apply (visit_exprs_in_walk root decorator_list c2 calls'); [| exact H3].
        intros e He. apply (in_children _ _ Hin). cbn.
        apply in_or_app. right. apply in_or_app. right. now apply in_map.
Qed.

End StaticAgainstRuntime.

Section Consistency.
Import Ast ContractUtil ContractValidator Scenario Cases.

Lemma seq_done (a : step) (s : state) : seq a done s = a s.
Proof. unfold seq, done. now destruct (a s) as [s' [[] | e |]]. Qed.

Lemma disallowed_calls_nil (allowed : list string) (name : string)
      (nodes : list node) :
  disallowed_calls allowed name nodes = [] ->
  forall lineno c xs,
    In (NExpr (Call lineno (Name c) xs)) nodes -> mem c allowed = true.
Proof.
  unfold disallowed_calls.
  induction nodes as [| n nodes IH]; intros H lineno c xs Hin; [destruct Hin |].
  cbn [flat_map] in H. apply app_eq_nil in H. destruct H as [Hn Hrest].
  destruct Hin as [-> | Hin]; [| now apply (IH Hrest lineno c xs)].
  cbn [called_name] in Hn. now destruct (mem c allowed).
Qed.

Lemma function_calls_in_walk (fn : pyfunc) (calls : list string) :
  function_calls fn = Ok calls ->
  forall c, In c calls ->
            exists lineno xs,
              In (NExpr (Call lineno (Name c) xs))
                 (walk (NStmt (FunctionDef (fn_lineno fn) (__name__ fn) (fn_args fn)
                                           (fn_body fn) (fn_decorators fn)))).
Proof.
  unfold function_calls, getsource. cbn [visit_module]. intros H c Hc.
  apply bind_ok_inv in H. destruct H as (c1 & H & Heq). inversion Heq; subst c1.
  destruct (visit_stmt_in_walk_bounded _ _ _ _ _ (le_n _) (walk_root _) H c Hc)
    as [[] | Hf].
  exact Hf.
Qed.

(** X17.  Where the two extractors meet: if a pass of the static validator
    over the source of a governed function runs to its end and adds no
    call violation, then every name the run-time extractor takes from that
    source passes the run-time call-graph check.  (The converse fails: the
    run-time extractor does not look inside the arguments of a call.) *)
Theorem static_pass_clears_runtime_call_graph
        (contract : dict) (fn : pyfunc) (section : dict)
        (functions allowable global : list string) (shared : class_attrs)
        (calls : list string) :
  lookup "functions" contract = Some (CList functions) ->
  mem (__name__ fn) functions = true ->
  lookup (__name__ fn) contract = Some (CDict section) ->
  lookup "allowable_calls" section = Some (CList allowable) ->
  lookup "global_allowed_calls" contract = Some (CList global) ->
  has_key "allowable_imports" contract = true ->
  snd (analysis_pass contract (getsource fn) shared) = Ok tt ->
  call_violation (cls (fst (analysis_pass contract (getsource fn) shared)))
  = call_violation shared ->
  function_calls fn = Ok calls ->
  validate_calls contract fn calls = Ok tt.
Proof.
  intros Hf Hm Hs Ha Hg Hi Hend Hnone Hcalls.
  unfold analysis_pass, check, getsource in Hend, Hnone.
  cbn [visit_tree] in Hend, Hnone. rewrite seq_done in Hend, Hnone.
  assert (Hallowed : allowed_calls_of contract (__name__ fn)
                     = Ok (global ++ allowable)).
  { unfold allowed_calls_of, getitem, get_or_empty. rewrite Hs, Hg.
    cbn [bind py_get_or_empty]. unfold get_or_empty. now rewrite Ha. }
  rewrite (visit_declared_FunctionDef contract functions _ _ _ _ _ _ Hf Hm)
    in Hend, Hnone.
  pose proof (try_walk_call_violation contract (global ++ allowable) _ _ _
                Hallowed Hi Hend) as Hrec.
  rewrite Hnone in Hrec. cbn [new_visitor cls graph_init call_violation] in Hrec.
  rewrite <- (app_nil_r (call_violation shared)) in Hrec at 1.
  apply app_inv_head in Hrec. symmetry in Hrec.
  apply (validate_calls_all_allowed contract fn section allowable global Hs Ha Hg).
  intros c Hc.
  destruct (function_calls_in_walk fn calls Hcalls c Hc) as (lineno & xs & Hin).
  pose proof (disallowed_calls_nil _ _ _ Hrec lineno c xs Hin) as Hmem.
  rewrite mem_app in Hmem. now rewrite orb_comm.
Qed.

(** [called] of test/test_calls.py: the static pass over its source is
    clean, and its extracted calls pass the run-time check. *)
Lemma static_pass_clears_runtime_call_graph_witness :
  validate_calls TestCalls.contract TestCalls.called ["enforce_contract"] = Ok tt.
Proof.
  exact (static_pass_clears_runtime_call_graph
           TestCalls.contract TestCalls.called _ ["caller"; "called"] []
           ["enforce_contract"] class_initial ["enforce_contract"]
           eq_refl eq_refl eq_refl eq_refl eq_refl eq_refl eq_refl eq_refl eq_refl).
Defined.

End Consistency.

(* ===================================================================== *)
(** ** Import statements                                                  *)
(* ===================================================================== *)

Section Imports.
Import Ast ContractUtil ContractValidator Scenario Cases.

Lemma visit_Import_listed (contract : dict) (imports : list string)
      (names : list alias) (s : state) :
  lookup "allowable_imports" contract = Some (CList imports) ->
  visit_Import contract names s
  = (mkState
       (mkClass (call_violation (cls s))
                (import_violation (cls s) ++ disallowed_imports imports names)
                (undeclared_func (cls s)) (undefined_func (cls s))
                (undecorated_class (cls s)) (call_graph (cls s)))
       (error_count s + length (disallowed_imports imports names)),
     Ok tt).
Proof.
  intros Hl. revert s. unfold disallowed_imports.
  induction names as [| n names IH]; intros s.
  - cbn. rewrite app_nil_r, Nat.add_0_r. now destruct s as [[] ?].
  - cbn [visit_Import]. unfold eval, getitem. rewrite Hl. cbn [bind py_in filter].
    destruct (mem (alias_name n) imports); cbn [negb].
    + apply IH.
    + unfold seq. cbn [count_error on_class]. rewrite IH.
      cbn [cls error_count append_import_violation import_violation
           call_violation undeclared_func undefined_func undecorated_class
           call_graph map length].
      rewrite <- app_assoc. cbn [app]. f_equal.
      apply f_equal2; [reflexivity | lia].
Qed.

(** X18.  An [import] statement at module level, under a contract whose
    ["allowable_imports"] is a list: the pass appends one record, with the
    line, for every imported name that is not in the list, in the order of
    the statement, counts each, and touches nothing else.  Without the key
    a statement that imports anything stops the pass with a KeyError. *)
Theorem import_violations_are_the_disallowed_imports
        (contract : dict) (names : list alias) (s : state) :
  (forall imports,
      lookup "allowable_imports" contract = Some (CList imports) ->
      visit contract (Import names) s
      = (mkState
           (mkClass (call_violation (cls s))
                    (import_violation (cls s) ++ disallowed_imports imports names)
                    (undeclared_func (cls s)) (undefined_func (cls s))
                    (undecorated_class (cls s)) (call_graph (cls s)))
           (error_count s + length (disallowed_imports imports names)),
         Ok tt))
  /\ (lookup "allowable_imports" contract = None ->
      names <> [] ->
      visit contract (Import names) s
      = (s, Raise (Builtin (KeyError "allowable_imports")))).
Proof.
  split.
  - intros imports Hl. cbn [visit]. now apply visit_Import_listed.
  - intros Hl Hne. destruct names as [| n names]; [now elim Hne |].
    cbn [visit visit_Import]. unfold eval, getitem. now rewrite Hl.
Qed.

(** [import os, contract_util] on line 1 under the contract of the tests:
    [os] is recorded, [contract_util] is allowed. *)
Lemma import_violations_are_the_disallowed_imports_witness :
  visit TestCalls.contract
        (Import [mkAlias 1 "os"; mkAlias 1 "contract_util"])
        (new_visitor class_initial)
  = (mkState (mkClass [] [(1, "os")] [] [] [] []) 1, Ok tt).
Proof.
  exact (proj1 (import_violations_are_the_disallowed_imports
                  TestCalls.contract [mkAlias 1 "os"; mkAlias 1 "contract_util"]
                  (new_visitor class_initial))
               ["contract_util"] eq_refl).
Defined.

End Imports.
